(** * DealSignals: the library modules ([src/lib])

    A shallow embedding of the cost-tracking module ([costs.py]: the
    pricing table, [calculate_cost], [aggregate_costs] and [save_costs]),
    of the scoring module ([eval.py]: [score_response], [aggregate_scores],
    [save_eval] and [load_eval]), and of the functions that keep responses
    and parsed documents on disk ([llm.py]: [save_response] and
    [load_response]; [parse.py]: [save_parsed] and [load_parsed]), over

    - Python [int] as [Z] (unbounded),
    - Python [float] as IEEE-754 binary64, through the executable
      specification [SpecFloat] of the Standard Library (round to nearest,
      ties to even),
    - exceptions as an error type,
    - list objects in a store, so that aliasing between the caller's list
      and [RunCosts.entries] is visible,
    - the files written by [json.dump] as the JSON values they encode, text
      files as their text, and a directory as the finite map of its
      entries. *)

From Stdlib Require Import ZArith List Ascii String Bool Lia SpecFloat DecimalString.
From Stdlib Require OrderedTypeEx.
From stdpp Require Import gmap strings sorting.

Import ListNotations.
Local Open Scope string_scope.
Local Open Scope Z_scope.

(** ** Exceptions and results *)

Inductive exn : Type :=
| ValueError (msg : string)
| OverflowError
| ZeroDivisionError
| OSError
| MalformedRecordError.

Inductive result (A : Type) : Type :=
| Ok (a : A)
| Raise (e : exn).

Arguments Ok {A} a.
Arguments Raise {A} e.

Definition rbind {A B : Type} (r : result A) (k : A -> result B) : result B :=
  match r with
  | Ok a => k a
  | Raise e => Raise e
  end.

(** ** Python floats: IEEE-754 binary64 *)

Module Float64.

Definition prec : Z := 53.
Definition emax : Z := 1024.

Definition float : Type := spec_float.

Definition pzero : float := S754_zero false.

(** The integer [n] as a floating-point datum with exponent 0.  The
    mantissa is not normalised: it is the exact operand handed to a
    correctly rounded operation. *)
Definition exact (n : Z) : float :=
  match n with
  | Z0 => S754_zero false
  | Zpos p => S754_finite false p 0
  | Zneg p => S754_finite true p 0
  end.

(** The double nearest to the rational [n / d] ([d > 0]): what the
    decimal literal with that value denotes. *)
Definition lit (n d : Z) : float := SFdiv prec emax (exact n) (exact d).

Definition add : float -> float -> float := SFadd prec emax.
Definition sub : float -> float -> float := SFsub prec emax.
Definition mul : float -> float -> float := SFmul prec emax.
Definition div : float -> float -> float := SFdiv prec emax.
Definition abs : float -> float := SFabs.
Definition eqb : float -> float -> bool := SFeqb.
Definition leb : float -> float -> bool := SFleb.

Definition is_zero (x : float) : bool :=
  match x with S754_zero _ => true | _ => false end.

Definition is_infinite (x : float) : bool :=
  match x with S754_infinity _ => true | _ => false end.

(** Finite in the sense of [math.isfinite]: a zero or a finite number. *)
Definition is_finite (x : float) : bool :=
  match x with
  | S754_zero _ | S754_finite _ _ _ => true
  | _ => false
  end.

End Float64.

Import Float64.

(** *** Python's arithmetic on [int] and [float] *)

(** [a / b] on two [int]s: the correctly rounded quotient;
    [ZeroDivisionError] for [b = 0], [OverflowError] when the quotient is
    too large for a float. *)
Definition int_truediv (a b : Z) : result float :=
  if b =? 0 then Raise ZeroDivisionError
  else
    let q := div (exact a) (exact b) in
    if is_infinite q then Raise OverflowError else Ok q.

(** [float(n)]: nearest double, [OverflowError] when out of range. *)
Definition float_of_int (n : Z) : result float :=
  let x := binary_normalize prec emax n 0 false in
  if is_infinite x then Raise OverflowError else Ok x.

(** [x / y] on two floats raises on a zero divisor. *)
Definition float_truediv (x y : float) : result float :=
  if is_zero y then Raise ZeroDivisionError else Ok (div x y).

(** [x / n] for a float [x] and an [int] [n]: [n] is converted first. *)
Definition float_div_int (x : float) (n : Z) : result float :=
  rbind (float_of_int n) (fun y => float_truediv x y).

(** [sum(...)] over [int]s: the accumulator starts at [0] and the items
    are added from left to right. *)
Definition py_sum (l : list Z) : Z := fold_left Z.add l 0.

(** [sum(...)] over floats: the start value [0] becomes [0.0] at the first
    float item, and the items are added from left to right.  (This is the
    plain running sum; CPython 3.12 and later also carry a compensation
    term for the rounding errors of a float sum.) *)
Definition py_sum_float (l : list float) : float := fold_left add l pzero.

(** ** The pricing table *)

Record pricing : Type := { input : float; output : float }.

Definition PRICING : gmap string pricing :=
  list_to_map
    [ ("claude-3-5-sonnet-20241022", {| input := lit 300 100; output := lit 1500 100 |});
      ("claude-3-opus-20240229", {| input := lit 1500 100; output := lit 7500 100 |});
      ("claude-3-5-haiku-20241022", {| input := lit 80 100; output := lit 400 100 |});
      ("gpt-4o", {| input := lit 250 100; output := lit 1000 100 |});
      ("gpt-4o-mini", {| input := lit 15 100; output := lit 60 100 |});
      ("gpt-4-turbo", {| input := lit 1000 100; output := lit 3000 100 |});
      ("gemini-1.5-pro", {| input := lit 125 100; output := lit 500 100 |});
      ("gemini-1.5-flash", {| input := lit 75 1000; output := lit 30 100 |}) ].

(** The default of [PRICING.get(model, {"input": 0, "output": 0})]: the
    [int] 0 is converted to [0.0] by the float multiplication. *)
Definition zero_pricing : pricing := {| input := pzero; output := pzero |}.

(** ** CostEntry *)

Module CostEntry.
Record t : Type := mk {
  model : string;
  input_tokens : Z;
  output_tokens : Z;
  total_tokens : Z;
  input_cost : float;
  output_cost : float;
  total_cost : float;
  latency_ms : Z;
  timestamp : string
}.
End CostEntry.

(** [calculate_cost]; [now] is the value of
    [datetime.utcnow().isoformat()] at the call. *)
Definition calculate_cost (now : string) (model : string)
    (input_tokens output_tokens latency_ms : Z) : result CostEntry.t :=
  let pricing := default zero_pricing (PRICING !! model) in
  rbind (int_truediv input_tokens 1000000) (fun it =>
  let input_cost := mul it (input pricing) in
  rbind (int_truediv output_tokens 1000000) (fun ot =>
  let output_cost := mul ot (output pricing) in
  Ok (CostEntry.mk model input_tokens output_tokens
        (input_tokens + output_tokens)
        input_cost output_cost (add input_cost output_cost)
        latency_ms now))).


(** ** RunCosts, and the store of list objects

    A Python list is an object: [RunCosts.entries] holds a reference to
    the list the caller passed, not a copy.  The store maps references to
    list contents; the files of the file system are a map from paths to
    the JSON value they hold. *)

Definition loc : Type := positive.

Module RunCosts.
Record t : Type := mk {
  run_id : string;
  entries : loc;
  total_input_tokens : Z;
  total_output_tokens : Z;
  total_tokens : Z;
  total_cost : float;
  total_latency_ms : Z;
  avg_latency_ms : float;
  cost_per_question : float;
  model : string;
  started_at : string;
  completed_at : string
}.
End RunCosts.

#[local] Set Warnings "-register-all".

Inductive json : Type :=
| JString (s : string)
| JInt (n : Z)
| JFloat (x : float)
| JList (l : list json)
| JDict (kvs : list (string * json)).

Record world : Type := mkWorld {
  heap : gmap loc (list CostEntry.t);
  files : gmap string json;
  unwritable : gset string
}.

(** Computations that read and write the world and may raise; an
    exception leaves the world as it was when raised. *)
Definition M (A : Type) : Type := world -> result A * world.

Definition ret {A : Type} (a : A) : M A := fun w => (Ok a, w).

Definition raise {A : Type} (e : exn) : M A := fun w => (Raise e, w).

Definition bind {A B : Type} (c : M A) (k : A -> M B) : M B :=
  fun w =>
    match c w with
    | (Ok a, w') => k a w'
    | (Raise e, w') => (Raise e, w')
    end.

Definition lift {A : Type} (r : result A) : M A := fun w => (r, w).

Notation "'do' x <- c ; k" := (bind c (fun x => k))
  (at level 10, x name, c at level 100, k at level 200).

(** The current content of a list object.  (A reference held by a
    program always leads to a list; the statements below say which.) *)
Definition read_list (l : loc) : M (list CostEntry.t) :=
  fun w => (Ok (default [] (heap w !! l)), w).

(** A new list object. *)
Definition new_list (es : list CostEntry.t) : M loc :=
  fun w =>
    let l := fresh (dom (heap w)) in
    (Ok l, mkWorld (<[l := es]> (heap w)) (files w) (unwritable w)).

(** [with open(path, "w") as f: json.dump(data, f, indent=2)]: the file
    holds [data] afterwards; an unwritable destination raises. *)
Definition write_json (path : string) (data : json) : M unit :=
  fun w =>
    if decide (path ∈ unwritable w) then (Raise OSError, w)
    else (Ok tt, mkWorld (heap w) (<[path := data]> (files w)) (unwritable w)).

Definition len {A : Type} (l : list A) : Z := Z.of_nat (length l).

(** ** aggregate_costs *)

Definition aggregate_costs (entries : loc) (run_id : string) : M RunCosts.t :=
  do es <- read_list entries;
  match es with
  | [] => raise (ValueError "No cost entries to aggregate")
  | first :: _ =>
      let total_input := py_sum (map CostEntry.input_tokens es) in
      let total_output := py_sum (map CostEntry.output_tokens es) in
      let total_cost := py_sum_float (map CostEntry.total_cost es) in
      let total_latency := py_sum (map CostEntry.latency_ms es) in
      do avg_latency_ms <- lift (int_truediv total_latency (len es));
      do cost_per_question <- lift (float_div_int total_cost (len es));
      ret (RunCosts.mk run_id entries total_input total_output
             (total_input + total_output) total_cost total_latency
             avg_latency_ms cost_per_question
             (CostEntry.model first)
             (CostEntry.timestamp first)
             (CostEntry.timestamp (List.last es first)))
  end.

(** ** round(x, ndigits) for [ndigits >= 0] *)

(** The integer nearest to [num / den] ([0 <= num], [0 < den]), ties to
    the even one. *)
Definition round_half_even (num den : Z) : Z :=
  let q := num / den in
  match 2 * (num mod den) ?= den with
  | Lt => q
  | Gt => q + 1
  | Eq => if Z.even q then q else q + 1
  end.

(** [round(x, ndigits)]: the exact value of [x] is rounded to [ndigits]
    decimals, ties to even, and the decimal obtained is converted to the
    nearest double.  Zeros, infinities and NaN round to themselves.  (The
    result of rounding a finite double to [ndigits >= 0] decimals is never
    out of range.) *)
Definition py_round (x : float) (ndigits : Z) : float :=
  match x with
  | S754_finite s m e =>
      let p := 10 ^ ndigits in
      let k :=
        if 0 <=? e then round_half_even (Zpos m * 2 ^ e * p) 1
        else round_half_even (Zpos m * p) (2 ^ (- e)) in
      match k with
      | Zpos k' => div (S754_finite s k' 0) (exact p)
      | _ => S754_zero s
      end
  | _ => x
  end.

(** ** save_costs *)

(** [asdict(e)] *)
Definition asdict (e : CostEntry.t) : json :=
  JDict [ ("model", JString (CostEntry.model e));
          ("input_tokens", JInt (CostEntry.input_tokens e));
          ("output_tokens", JInt (CostEntry.output_tokens e));
          ("total_tokens", JInt (CostEntry.total_tokens e));
          ("input_cost", JFloat (CostEntry.input_cost e));
          ("output_cost", JFloat (CostEntry.output_cost e));
          ("total_cost", JFloat (CostEntry.total_cost e));
          ("latency_ms", JInt (CostEntry.latency_ms e));
          ("timestamp", JString (CostEntry.timestamp e)) ].

(** The dictionary [data] built by [save_costs]; [es] is the content of
    [costs.entries]. *)
Definition save_costs_data (costs : RunCosts.t) (es : list CostEntry.t) : json :=
  JDict [ ("run_id", JString (RunCosts.run_id costs));
          ("model", JString (RunCosts.model costs));
          ("totals",
            JDict [ ("input_tokens", JInt (RunCosts.total_input_tokens costs));
                    ("output_tokens", JInt (RunCosts.total_output_tokens costs));
                    ("total_tokens", JInt (RunCosts.total_tokens costs));
                    ("total_cost_usd", JFloat (py_round (RunCosts.total_cost costs) 4));
                    ("total_latency_ms", JInt (RunCosts.total_latency_ms costs)) ]);
          ("averages",
            JDict [ ("latency_ms", JFloat (py_round (RunCosts.avg_latency_ms costs) 2));
                    ("cost_per_question_usd",
                      JFloat (py_round (RunCosts.cost_per_question costs) 6)) ]);
          ("timing",
            JDict [ ("started_at", JString (RunCosts.started_at costs));
                    ("completed_at", JString (RunCosts.completed_at costs)) ]);
          ("entries", JList (map asdict es)) ].

Definition save_costs (costs : RunCosts.t) (path : string) : M unit :=
  do es <- read_list (RunCosts.entries costs);
  write_json path (save_costs_data costs es).

(** ** Reading a JSON value *)

Definition jget (key : string) (j : json) : option json :=
  match j with
  | JDict kvs => snd <$> List.find (fun kv => String.eqb (fst kv) key) kvs
  | _ => None
  end.

Definition jkeys (j : json) : list string :=
  match j with
  | JDict kvs => map fst kvs
  | _ => []
  end.

Definition jstring (j : json) : option string :=
  match j with JString s => Some s | _ => None end.

Definition jint (j : json) : option Z :=
  match j with JInt n => Some n | _ => None end.

Definition jfloat (j : json) : option float :=
  match j with JFloat x => Some x | _ => None end.

Definition jlist (j : json) : option (list json) :=
  match j with JList l => Some l | _ => None end.

(** ** Reloading the durable form *)

(** The record an entry dictionary of the durable form denotes. *)
Definition entry_of_json (j : json) : option CostEntry.t :=
  model ← jget "model" j ≫= jstring;
  input_tokens ← jget "input_tokens" j ≫= jint;
  output_tokens ← jget "output_tokens" j ≫= jint;
  total_tokens ← jget "total_tokens" j ≫= jint;
  input_cost ← jget "input_cost" j ≫= jfloat;
  output_cost ← jget "output_cost" j ≫= jfloat;
  total_cost ← jget "total_cost" j ≫= jfloat;
  latency_ms ← jget "latency_ms" j ≫= jint;
  timestamp ← jget "timestamp" j ≫= jstring;
  Some (CostEntry.mk model input_tokens output_tokens total_tokens
          input_cost output_cost total_cost latency_ms timestamp).

(** The entries and the summary fields held by a durable form; the
    reference to the entries list is supplied once the list exists. *)
Definition run_of_json (j : json) : option (list CostEntry.t * (loc -> RunCosts.t)) :=
  run_id ← jget "run_id" j ≫= jstring;
  model ← jget "model" j ≫= jstring;
  totals ← jget "totals" j;
  total_input ← jget "input_tokens" totals ≫= jint;
  total_output ← jget "output_tokens" totals ≫= jint;
  total_tokens ← jget "total_tokens" totals ≫= jint;
  total_cost ← jget "total_cost_usd" totals ≫= jfloat;
  total_latency ← jget "total_latency_ms" totals ≫= jint;
  averages ← jget "averages" j;
  avg_latency_ms ← jget "latency_ms" averages ≫= jfloat;
  cost_per_question ← jget "cost_per_question_usd" averages ≫= jfloat;
  timing ← jget "timing" j;
  started_at ← jget "started_at" timing ≫= jstring;
  completed_at ← jget "completed_at" timing ≫= jstring;
  items ← jget "entries" j ≫= jlist;
  es ← (mapM entry_of_json items : option (list CostEntry.t));
  Some (es, fun entries =>
    RunCosts.mk run_id entries total_input total_output total_tokens
      total_cost total_latency avg_latency_ms cost_per_question
      model started_at completed_at).

Definition read_json (path : string) : M json :=
  fun w =>
    match files w !! path with
    | Some j => (Ok j, w)
    | None => (Raise OSError, w)
    end.

(** Modelled from the spec: the reload of the durable form
    ("serializes/deserializes an aggregated run to/from a durable JSON
    representation"), which [src/lib/costs.py] does not contain.  It reads
    the file (a read failure is the spec's IOFailure), takes every field of
    the durable form back (a missing field is the spec's
    MalformedRecordError) and builds a new entries list. *)
Definition load_costs (path : string) : M RunCosts.t :=
  do j <- read_json path;
  match run_of_json j with
  | None => raise MalformedRecordError
  | Some (es, mk_run) =>
      do entries <- new_list es;
      ret (mk_run entries)
  end.

(** ** The properties stated about the module *)

(** The sum of a list of integers. *)
Definition Zsum (l : list Z) : Z := fold_right Z.add 0 l.

(** The float total after the first [n] items, each added to the total of
    the items before it. *)
Fixpoint running_total (l : list float) (n : nat) : float :=
  match n with
  | O => pzero
  | S k => add (running_total l k) (nth k l pzero)
  end.

(** [abs(a - b) <= 1e-9] *)
Definition within_tol (a b : float) : bool :=
  leb (abs (sub a b)) (lit 1 1000000000).

(** The latencies of a list are in range when their sum stays below
    [2 ^ 1000] in magnitude; a list object holds at most [sys.maxsize]
    items. *)
Definition latency_in_range (es : list CostEntry.t) : Prop :=
  Z.abs (Zsum (map CostEntry.latency_ms es)) < 2 ^ 1000 /\ len es < 2 ^ 63.

(** Two summaries agree up to the rounding of the durable form: the
    integer and text fields are equal, the float fields of [fresh] round
    to those of [stored]. *)
Definition summary_matches (fresh stored : RunCosts.t) : Prop :=
  RunCosts.model fresh = RunCosts.model stored /\
  RunCosts.total_input_tokens fresh = RunCosts.total_input_tokens stored /\
  RunCosts.total_output_tokens fresh = RunCosts.total_output_tokens stored /\
  RunCosts.total_tokens fresh = RunCosts.total_tokens stored /\
  py_round (RunCosts.total_cost fresh) 4 = RunCosts.total_cost stored /\
  RunCosts.total_latency_ms fresh = RunCosts.total_latency_ms stored /\
  py_round (RunCosts.avg_latency_ms fresh) 2 = RunCosts.avg_latency_ms stored /\
  py_round (RunCosts.cost_per_question fresh) 6 = RunCosts.cost_per_question stored /\
  RunCosts.started_at fresh = RunCosts.started_at stored /\
  RunCosts.completed_at fresh = RunCosts.completed_at stored.

(** The round trip through persistence, for a run [costs] whose entries
    list holds [es]: saving and reloading yields a run whose entries list
    holds [es], and aggregating that list again gives summary fields that
    match the reloaded ones. *)
Definition roundtrip (w : world) (costs : RunCosts.t) (es : list CostEntry.t)
    (path : string) : Prop :=
  exists w1 reloaded w2 again,
    save_costs costs path w = (Ok tt, w1) /\
    load_costs path w1 = (Ok reloaded, w2) /\
    heap w2 !! RunCosts.entries reloaded = Some es /\
    aggregate_costs (RunCosts.entries reloaded) (RunCosts.run_id reloaded) w2
      = (Ok again, w2) /\
    summary_matches again reloaded.

(** What [aggregate_costs] promises about the totals and averages of the
    run [r] it returns for the entries [es]. *)
Definition aggregates (es : list CostEntry.t) (r : RunCosts.t) : Prop :=
  RunCosts.total_input_tokens r = Zsum (map CostEntry.input_tokens es) /\
  RunCosts.total_output_tokens r = Zsum (map CostEntry.output_tokens es) /\
  RunCosts.total_cost r = running_total (map CostEntry.total_cost es) (length es) /\
  RunCosts.total_latency_ms r = Zsum (map CostEntry.latency_ms es) /\
  int_truediv (RunCosts.total_latency_ms r) (len es) = Ok (RunCosts.avg_latency_ms r) /\
  float_div_int (RunCosts.total_cost r) (len es) = Ok (RunCosts.cost_per_question r).

(** [aggregate_costs] returns a run with the totals of [es]. *)
Definition returns_totals (w : world) (entries : loc) (es : list CostEntry.t)
    (run_id : string) : Prop :=
  exists r, aggregate_costs entries run_id w = (Ok r, w) /\ aggregates es r.

(** The failure on an empty list, and success on every other list. *)
Definition fails_only_when_empty (w : world) (entries : loc)
    (es : list CostEntry.t) (run_id : string) : Prop :=
  (es = [] ->
   fst (aggregate_costs entries run_id w)
   = Raise (ValueError "No cost entries to aggregate")) /\
  (es <> [] -> exists r, fst (aggregate_costs entries run_id w) = Ok r).

(** The invariant of an entry, with the tolerance of the cost equation. *)
Definition entry_invariant (e : CostEntry.t) : Prop :=
  CostEntry.total_tokens e = CostEntry.input_tokens e + CostEntry.output_tokens e /\
  within_tol (CostEntry.total_cost e)
    (add (CostEntry.input_cost e) (CostEntry.output_cost e)) = true.

(** [calculate_cost] returns an entry whose three costs compare equal to
    zero. *)
Definition costs_nothing (now model : string)
    (input_tokens output_tokens latency_ms : Z) : Prop :=
  exists e,
    calculate_cost now model input_tokens output_tokens latency_ms = Ok e /\
    eqb (CostEntry.input_cost e) pzero = true /\
    eqb (CostEntry.output_cost e) pzero = true /\
    eqb (CostEntry.total_cost e) pzero = true.

(** An entry with another [total_tokens] field. *)
Definition with_total_tokens (n : Z) (e : CostEntry.t) : CostEntry.t :=
  CostEntry.mk (CostEntry.model e) (CostEntry.input_tokens e)
    (CostEntry.output_tokens e) n (CostEntry.input_cost e)
    (CostEntry.output_cost e) (CostEntry.total_cost e)
    (CostEntry.latency_ms e) (CostEntry.timestamp e).

(** One shift of the rounding of [SpecFloat], from mantissa [m] and
    exponent [e] to [m'] and [e'], on the exponent [x] it aims at. *)
Definition shifted (m e m' e' : Z) : Prop :=
  let x := Z.max (Zdigits2 m + e - 53) (-1074) in
  (x <= e /\ m' = m /\ e' = e) \/ (e < x /\ m' = m / 2 ^ (x - e) /\ e' = x).

(** The scenario of the specification, read with [==] on floats:
    [calculate_cost("gpt-4o-mini", 1_000_000, 500_000, 250)] has
    [input_cost == 0.15], [output_cost == 0.30] and [total_cost == 0.45]. *)
Definition scenario_costs (now : string) : Prop :=
  exists e,
    calculate_cost now "gpt-4o-mini" 1000000 500000 250 = Ok e /\
    eqb (CostEntry.input_cost e) (lit 15 100) = true /\
    eqb (CostEntry.output_cost e) (lit 30 100) = true /\
    eqb (CostEntry.total_cost e) (lit 45 100) = true.

(** A run built by hand for a batch that made no call. *)
Definition idle_run : RunCosts.t :=
  RunCosts.mk "run-0" 1%positive 0 0 0 pzero 0 pzero pzero "gpt-4o" "" "".

(** The dictionary [j] carries the nine fields of the entry [e], as they
    are. *)
Definition carries_entry (e : CostEntry.t) (j : json) : Prop :=
  jkeys j = ["model"; "input_tokens"; "output_tokens"; "total_tokens";
             "input_cost"; "output_cost"; "total_cost"; "latency_ms";
             "timestamp"] /\
  jget "model" j = Some (JString (CostEntry.model e)) /\
  jget "input_tokens" j = Some (JInt (CostEntry.input_tokens e)) /\
  jget "output_tokens" j = Some (JInt (CostEntry.output_tokens e)) /\
  jget "total_tokens" j = Some (JInt (CostEntry.total_tokens e)) /\
  jget "input_cost" j = Some (JFloat (CostEntry.input_cost e)) /\
  jget "output_cost" j = Some (JFloat (CostEntry.output_cost e)) /\
  jget "total_cost" j = Some (JFloat (CostEntry.total_cost e)) /\
  jget "latency_ms" j = Some (JInt (CostEntry.latency_ms e)) /\
  jget "timestamp" j = Some (JString (CostEntry.timestamp e)).

(** ** Sample runs *)

(** Two calls of one run, listed out of chronological order, against two
    models; the second entry's [total_tokens] is not the sum of its
    token counts. *)
Definition late_entry : CostEntry.t :=
  CostEntry.mk "gpt-4o" 1200 300 1500 (lit 3 1000) (lit 3 1000) (lit 6 1000)
    800 "2024-12-03T10:00:05".

Definition early_entry : CostEntry.t :=
  CostEntry.mk "gpt-4o-mini" 900 100 7 (lit 1 4) (lit 1 2) (lit 3 4)
    650 "2024-12-01T09:00:00".

Definition sample_entries : list CostEntry.t := [late_entry; early_entry].

Definition sample_world : world :=
  mkWorld {[ 1%positive := sample_entries ]} ∅ ∅.

(** The run that [aggregate_costs] makes of [sample_entries]. *)
Definition sample_run : RunCosts.t :=
  RunCosts.mk "run-1" 1%positive 2100 400 2500
    (add (add pzero (lit 6 1000)) (lit 3 4)) 1450
    (lit 725 1) (div (add (add pzero (lit 6 1000)) (lit 3 4)) (lit 2 1))
    "gpt-4o" "2024-12-03T10:00:05" "2024-12-01T09:00:00".

(** A call recorded with a latency of [10 ** 400] milliseconds. *)
Definition slow_entries : list CostEntry.t :=
  [ CostEntry.mk "gpt-4o" 10 10 20 pzero pzero pzero (10 ^ 400) "2024-12-01T09:00:00" ].

Definition slow_world : world :=
  mkWorld {[ 1%positive := slow_entries ]} ∅ ∅.

(** Two calls with a latency of [2 ** 1030] milliseconds each. *)
Definition stalled_entries : list CostEntry.t :=
  [ CostEntry.mk "gpt-4o" 1 1 2 pzero pzero pzero (2 ^ 1030) "2024-12-01T09:00:00";
    CostEntry.mk "gpt-4o" 1 1 2 pzero pzero pzero (2 ^ 1030) "2024-12-01T09:00:01" ].

Definition stalled_world : world :=
  mkWorld {[ 1%positive := stalled_entries ]} ∅ ∅.

Definition empty_world : world :=
  mkWorld {[ 1%positive := [] ]} ∅ ∅.

(** [x] is a zero or a finite number of magnitude below [2 ^ K], with an
    exponent a double can have. *)
Definition bounded_by (K : Z) (x : float) : Prop :=
  match x with
  | S754_zero _ => True
  | S754_finite _ m e => Z.pos m < 2 ^ (K - e) /\ e <= 971 /\ e <= K
  | _ => False
  end.

(** A price of the table: positive, below 128, with a negative exponent. *)
Definition price_ok (x : float) : bool :=
  match x with
  | S754_finite false m e => (Z.pos m <? 2 ^ (7 - e)) && (e <=? 0)
  | _ => false
  end.

(** ** Further sample runs *)

(** One store with the sample list, the same list in the other order,
    and the list of its first entry alone. *)
Definition shelf_world : world :=
  mkWorld {[ 1%positive := sample_entries;
             2%positive := [early_entry; late_entry];
             3%positive := [late_entry] ]} ∅ ∅.

(** The entry that [calculate_cost] returns, for arguments it accepts. *)
Definition priced (now model : string) (input_tokens output_tokens latency_ms : Z)
    : CostEntry.t :=
  match calculate_cost now model input_tokens output_tokens latency_ms with
  | Ok e => e
  | Raise _ => late_entry
  end.

Definition priced_entries : list CostEntry.t :=
  [ priced "2024-12-01T09:00:00" "gpt-4o" 1200 300 800;
    priced "2024-12-01T09:00:07" "gpt-4o" 950 410 1210;
    priced "2024-12-01T09:00:15" "no-such-model" 20 5 90 ].

Definition priced_world : world :=
  mkWorld {[ 1%positive := priced_entries ]} ∅ ∅.

(** The sample list after the caller has added a call to the list of
    [late_entry] alone. *)
Definition grown_world : world :=
  mkWorld {[ 3%positive := sample_entries ]} ∅ ∅.

(** The run that [aggregate_costs] returns, where it returns one. *)
Definition run_of (entries : loc) (run_id : string) (w : world) : RunCosts.t :=
  match fst (aggregate_costs entries run_id w) with
  | Ok r => r
  | Raise _ => idle_run
  end.

(** The world that a computation leaves. *)
Definition after {A : Type} (c : M A) (w : world) : world := snd (c w).

(** [x >= 0] on a float. *)
Definition not_negative (x : float) : bool := leb pzero x.

(** A zero, or a finite number that is not negative. *)
Definition signless (x : float) : Prop :=
  match x with
  | S754_zero _ => True
  | S754_finite s _ _ => s = false
  | _ => False
  end.

(** [x] is a finite number, not zero, of magnitude at least
    [2 ^ (L - 1)]. *)
Definition above (L : Z) (x : float) : Prop :=
  match x with
  | S754_finite _ m e => L <= Zdigits2 (Z.pos m) + e
  | _ => False
  end.

(** A price of the table is at least [2 ^ -4]. *)
Definition price_large (x : float) : bool :=
  match x with
  | S754_finite _ m e => -3 <=? Zdigits2 (Z.pos m) + e
  | _ => false
  end.

(** [x > 0] on a float. *)
Definition positive_float (x : float) : bool := SFltb pzero x.

(** * Evaluation and scoring ([src/lib/eval.py]) *)

(** ** JSON values

    What [json.load] returns and [json.dump] accepts: [None], [bool],
    [int], [float], [str], lists, and dictionaries with [str] keys.  A
    dictionary is the list of its items in insertion order, no key twice. *)

Module Json.
Inductive t : Type :=
| Null
| Bool (b : bool)
| Int (n : Z)
| Float (x : float)
| Str (s : string)
| Arr (items : list t)
| Obj (members : list (string * t)).
End Json.

(** [d.get(key)] on the items of a dictionary. *)
Definition lookup_key (key : string) (kvs : list (string * Json.t)) : option Json.t :=
  snd <$> List.find (fun kv => String.eqb (fst kv) key) kvs.

(** The items left by [d.pop(key)]. *)
Fixpoint remove_key (key : string) (kvs : list (string * Json.t))
    : list (string * Json.t) :=
  match kvs with
  | [] => []
  | (k, v) :: rest =>
      if String.eqb k key then rest else (k, v) :: remove_key key rest
  end.

(** [bool(v)] *)
Definition truthy (v : Json.t) : bool :=
  match v with
  | Json.Null => false
  | Json.Bool b => b
  | Json.Int n => negb (n =? 0)
  | Json.Float x => negb (is_zero x)
  | Json.Str s => negb (String.eqb s "")
  | Json.Arr items => match items with [] => false | _ => true end
  | Json.Obj members => match members with [] => false | _ => true end
  end.

(** The exceptions of the code that reads stored values back. *)
Inductive error : Type :=
| KeyError (key : string)
| TypeError
| AttributeError
| InvalidMember          (* ValueError: not a valid FailureMode *)
| Unreadable             (* OSError, or the file is not JSON text *)
| Unwritable             (* OSError on creating or writing *)
| OutsideModel.

Inductive outcome (A : Type) : Type :=
| Done (a : A)
| Failed (e : error).

Arguments Done {A} a.
Arguments Failed {A} e.

#[local] Instance outcome_ret : MRet outcome := fun A a => Done a.

#[local] Instance outcome_bind : MBind outcome := fun A B k c =>
  match c with
  | Done a => k a
  | Failed e => Failed e
  end.

(** [v[key]] for a [str] key: only a dictionary can answer. *)
Definition subscript (v : Json.t) (key : string) : outcome Json.t :=
  match v with
  | Json.Obj members =>
      match lookup_key key members with
      | Some x => Done x
      | None => Failed (KeyError key)
      end
  | _ => Failed TypeError
  end.

(** The items that [for s in v] goes through: the elements of a list, the
    keys of a dictionary, the characters of a string. *)
Definition iterate (v : Json.t) : outcome (list Json.t) :=
  match v with
  | Json.Arr items => Done items
  | Json.Obj members => Done (map (fun kv => Json.Str (fst kv)) members)
  | Json.Str s =>
      Done (map (fun c => Json.Str (String c EmptyString)) (list_ascii_of_string s))
  | _ => Failed TypeError
  end.

(** The JSON files, each as the value its text encodes, and the paths that
    cannot be opened for writing. *)
Record disk : Type := mkDisk {
  documents : gmap string Json.t;
  protected : gset string
}.

(** [with open(path, "w") as f: json.dump(data, f, indent=2)] *)
Definition dump_json (data : Json.t) (path : string) (d : disk) : outcome unit * disk :=
  if decide (path ∈ protected d) then (Failed Unwritable, d)
  else (Done tt, mkDisk (<[path := data]> (documents d)) (protected d)).

(** [with open(path) as f: data = json.load(f)] *)
Definition load_json (path : string) (d : disk) : outcome Json.t :=
  match documents d !! path with
  | Some data => Done data
  | None => Failed Unreadable
  end.

(** ** FailureMode *)

Module FailureMode.
Inductive t : Type :=
| EXTRACTION_ERROR
| CALCULATION_ERROR
| REASONING_ERROR
| OMISSION
| HALLUCINATION
| CONTAMINATION
| RELEVANCE_ERROR
| CONFIDENCE_ERROR.

Definition value (m : t) : string :=
  match m with
  | EXTRACTION_ERROR => "extraction_error"
  | CALCULATION_ERROR => "calculation_error"
  | REASONING_ERROR => "reasoning_error"
  | OMISSION => "omission"
  | HALLUCINATION => "hallucination"
  | CONTAMINATION => "contamination"
  | RELEVANCE_ERROR => "relevance_error"
  | CONFIDENCE_ERROR => "confidence_error"
  end.

Definition members : list t :=
  [ EXTRACTION_ERROR; CALCULATION_ERROR; REASONING_ERROR; OMISSION;
    HALLUCINATION; CONTAMINATION; RELEVANCE_ERROR; CONFIDENCE_ERROR ].

(** [FailureMode(v)]: the member whose value is [v]. *)
Definition call (v : Json.t) : outcome t :=
  match v with
  | Json.Str s =>
      match List.find (fun m => String.eqb (value m) s) members with
      | Some m => Done m
      | None => Failed InvalidMember
      end
  | _ => Failed InvalidMember
  end.
End FailureMode.

(** ** Score and EvalResult *)

Module Score.
Record t : Type := mk {
  question_id : string;
  found : bool;
  accurate : bool;
  complete : float;
  cited : Z;
  relevant : Z;
  actionable : Z;
  stated_confidence : option string;
  actual_difficulty : option string;
  failure_mode : option FailureMode.t;
  failure_notes : option string;
  scorer : option string;
  scored_at : option string
}.
End Score.

Module EvalResult.
Record t : Type := mk {
  run_id : string;
  scores : list Score.t;
  accuracy_rate : float;
  completion_rate : float;
  citation_rate : float;
  hallucination_rate : float;
  scores_by_category : list (string * Json.t)
}.
End EvalResult.

(** ** score_response *)

(** The response is inspected character by character: it is given by its
    code points. *)
Definition text : Type := list N.

(** [str.isspace] on one code point; [str.strip()] removes these. *)
Definition isspace (c : N) : bool :=
  ((9 <=? c) && (c <=? 13) || (28 <=? c) && (c <=? 32) || (c =? 133) || (c =? 160)
   || (c =? 5760) || (8192 <=? c) && (c <=? 8202) || (c =? 8232) || (c =? 8233)
   || (c =? 8239) || (c =? 8287) || (c =? 12288))%N.

Fixpoint lstrip (s : text) : text :=
  match s with
  | [] => []
  | c :: rest => if isspace c then lstrip rest else s
  end.

Definition rstrip (s : text) : text := rev (lstrip (rev s)).

Definition strip (s : text) : text := rstrip (lstrip s).

(** [ground_truth] is not read. *)
Definition score_response (question_id : string) (response : text)
    (ground_truth : Json.t) (scorer : string) : Score.t :=
  Score.mk question_id
    (0 <? len (strip response))
    false
    pzero
    0
    3
    3
    None None None None
    (Some scorer)
    None.

(** ** aggregate_scores *)

(** [sum(1 for s in scores if cond(s))] *)
Definition count (cond : Score.t -> bool) (scores : list Score.t) : Z :=
  py_sum (map (fun _ => 1) (List.filter cond scores)).

Definition is_hallucination (s : Score.t) : bool :=
  match Score.failure_mode s with
  | Some FailureMode.HALLUCINATION => true
  | _ => false
  end.

Definition aggregate_scores (scores : list Score.t) (run_id : string)
    : result EvalResult.t :=
  let n := len scores in
  if n =? 0 then Raise (ValueError "No scores to aggregate")
  else
    rbind (int_truediv (count Score.accurate scores) n) (fun accuracy_rate =>
    rbind (float_div_int (py_sum_float (map Score.complete scores)) n)
      (fun completion_rate =>
    rbind (int_truediv (count (fun s => Score.cited s =? 2) scores) n)
      (fun citation_rate =>
    rbind (int_truediv (count is_hallucination scores) n) (fun hallucination_rate =>
    Ok (EvalResult.mk run_id scores accuracy_rate completion_rate citation_rate
          hallucination_rate []))))).

(** ** save_eval *)

Definition optional_str (o : option string) : Json.t :=
  match o with
  | Some s => Json.Str s
  | None => Json.Null
  end.

(** [{**asdict(s), "failure_mode": s.failure_mode.value if s.failure_mode
    else None}]: the fields of [s] in their order, [failure_mode] replaced
    in its place by the member's value (a member is always true). *)
Definition score_dict (s : Score.t) : Json.t :=
  Json.Obj
    [ ("question_id", Json.Str (Score.question_id s));
      ("found", Json.Bool (Score.found s));
      ("accurate", Json.Bool (Score.accurate s));
      ("complete", Json.Float (Score.complete s));
      ("cited", Json.Int (Score.cited s));
      ("relevant", Json.Int (Score.relevant s));
      ("actionable", Json.Int (Score.actionable s));
      ("stated_confidence", optional_str (Score.stated_confidence s));
      ("actual_difficulty", optional_str (Score.actual_difficulty s));
      ("failure_mode", optional_str (FailureMode.value <$> Score.failure_mode s));
      ("failure_notes", optional_str (Score.failure_notes s));
      ("scorer", optional_str (Score.scorer s));
      ("scored_at", optional_str (Score.scored_at s)) ].

Definition save_eval_data (result : EvalResult.t) : Json.t :=
  Json.Obj
    [ ("run_id", Json.Str (EvalResult.run_id result));
      ("accuracy_rate", Json.Float (EvalResult.accuracy_rate result));
      ("completion_rate", Json.Float (EvalResult.completion_rate result));
      ("citation_rate", Json.Float (EvalResult.citation_rate result));
      ("hallucination_rate", Json.Float (EvalResult.hallucination_rate result));
      ("scores", Json.Arr (map score_dict (EvalResult.scores result))) ].

Definition save_eval (result : EvalResult.t) (path : string) (d : disk)
    : outcome unit * disk :=
  dump_json (save_eval_data result) path d.

(** ** load_eval

    The loader checks no type: the constructors of [Score] and [EvalResult] take
    whatever values the file holds.  The exceptions are modelled for every
    file; the record is given when the values have the declared types of
    the fields, and [None] stands for a record that has not. *)

Definition as_str (v : Json.t) : option string :=
  match v with Json.Str s => Some s | _ => None end.

Definition as_bool (v : Json.t) : option bool :=
  match v with Json.Bool b => Some b | _ => None end.

Definition as_int (v : Json.t) : option Z :=
  match v with Json.Int n => Some n | _ => None end.

Definition as_float (v : Json.t) : option float :=
  match v with Json.Float x => Some x | _ => None end.

Definition as_dict (v : Json.t) : option (list (string * Json.t)) :=
  match v with Json.Obj members => Some members | _ => None end.

(** An [Optional[str]] field with default [None]. *)
Definition as_optional_str (v : option Json.t) : option (option string) :=
  match v with
  | None => Some None
  | Some Json.Null => Some None
  | Some (Json.Str s) => Some (Some s)
  | Some _ => None
  end.

Definition score_fields : list string :=
  [ "question_id"; "found"; "accurate"; "complete"; "cited"; "relevant";
    "actionable"; "stated_confidence"; "actual_difficulty"; "failure_mode";
    "failure_notes"; "scorer"; "scored_at" ].

Definition score_required : list string :=
  [ "question_id"; "found"; "accurate"; "complete"; "cited"; "relevant";
    "actionable" ].

(** A dataclass called with the items of a dictionary as keyword arguments
    raises [TypeError] on a keyword that is no field and on a missing field
    without default. *)
Definition accepts (fields required : list string) (kwargs : list (string * Json.t))
    : bool :=
  forallb (fun kv => existsb (String.eqb (fst kv)) fields) kwargs
  && forallb (fun k => existsb (fun kv => String.eqb (fst kv) k) kwargs) required.

Definition typed_score (kwargs : list (string * Json.t))
    (failure_mode : option FailureMode.t) : option Score.t :=
  question_id ← lookup_key "question_id" kwargs ≫= as_str;
  found ← lookup_key "found" kwargs ≫= as_bool;
  accurate ← lookup_key "accurate" kwargs ≫= as_bool;
  complete ← lookup_key "complete" kwargs ≫= as_float;
  cited ← lookup_key "cited" kwargs ≫= as_int;
  relevant ← lookup_key "relevant" kwargs ≫= as_int;
  actionable ← lookup_key "actionable" kwargs ≫= as_int;
  stated_confidence ← as_optional_str (lookup_key "stated_confidence" kwargs);
  actual_difficulty ← as_optional_str (lookup_key "actual_difficulty" kwargs);
  failure_notes ← as_optional_str (lookup_key "failure_notes" kwargs);
  scorer ← as_optional_str (lookup_key "scorer" kwargs);
  scored_at ← as_optional_str (lookup_key "scored_at" kwargs);
  Some (Score.mk question_id found accurate complete cited relevant actionable
          stated_confidence actual_difficulty failure_mode failure_notes
          scorer scored_at).

(** One turn of the loop of [load_eval]. *)
Definition load_score (s : Json.t) : outcome (option Score.t) :=
  match s with
  | Json.Obj members =>
      match lookup_key "failure_mode" members with
      | None => Failed (KeyError "failure_mode")
      | Some fm =>
          let kwargs := remove_key "failure_mode" members in
          if accepts score_fields score_required kwargs then
            failure_mode ← (if truthy fm then m ← FailureMode.call fm; Done (Some m)
                            else Done None);
            Done (typed_score kwargs failure_mode)
          else Failed TypeError
      end
  | Json.Arr _ => Failed TypeError
  | _ => Failed AttributeError
  end.

Definition load_eval (path : string) (d : disk) : outcome (option EvalResult.t) :=
  data ← load_json path d;
  items ← subscript data "scores" ≫= iterate;
  scores ← (mapM load_score items : outcome (list (option Score.t)));
  run_id ← subscript data "run_id";
  accuracy_rate ← subscript data "accuracy_rate";
  completion_rate ← subscript data "completion_rate";
  citation_rate ← subscript data "citation_rate";
  hallucination_rate ← subscript data "hallucination_rate";
  let scores_by_category :=
    default (Json.Obj []) (as_dict data ≫= lookup_key "scores_by_category") in
  Done (run_id ← as_str run_id;
        scores ← (mapM id scores : option (list Score.t));
        accuracy_rate ← as_float accuracy_rate;
        completion_rate ← as_float completion_rate;
        citation_rate ← as_float citation_rate;
        hallucination_rate ← as_float hallucination_rate;
        scores_by_category ← as_dict scores_by_category;
        Some (EvalResult.mk run_id scores accuracy_rate completion_rate
                citation_rate hallucination_rate scores_by_category)).

(** ** The properties of the evaluation module *)

(** The float [1.0]. *)
Definition one : float := S754_finite false 4503599627370496 (-52).

(** The value of [x] lies between 0 and 1. *)
Definition unit_interval (x : float) : Prop :=
  match x with
  | S754_zero _ => True
  | S754_finite false m e => e <= 0 /\ Z.pos m <= 2 ^ (- e)
  | _ => False
  end.

(** [result] as [load_eval] gives it back. *)
Definition without_categories (result : EvalResult.t) : EvalResult.t :=
  EvalResult.mk (EvalResult.run_id result) (EvalResult.scores result)
    (EvalResult.accuracy_rate result) (EvalResult.completion_rate result)
    (EvalResult.citation_rate result) (EvalResult.hallucination_rate result) [].

(** ** Sample scores *)

Definition right_score : Score.t :=
  Score.mk "q1" true true (lit 3 4) 2 4 5 (Some "HIGH") (Some "LOW") None None
    (Some "human") (Some "2024-12-03T10:00:00").

Definition invented_score : Score.t :=
  Score.mk "q2" true false (lit 1 4) 0 2 1 (Some "HIGH") None
    (Some FailureMode.HALLUCINATION) (Some "cites a filing that does not exist")
    (Some "human") None.

Definition blank_score : Score.t :=
  score_response "q3" [32%N; 10%N; 160%N] (Json.Obj []) "human".

Definition sample_scores : list Score.t := [right_score; invented_score; blank_score].

Definition empty_disk : disk := mkDisk ∅ ∅.

(** The result that [aggregate_scores] returns, where it returns one. *)
Definition result_of (scores : list Score.t) (run_id : string) : EvalResult.t :=
  match aggregate_scores scores run_id with
  | Ok r => r
  | Raise _ => EvalResult.mk run_id scores pzero pzero pzero pzero []
  end.

(** * The LLM wrapper ([src/lib/llm.py]) *)

Module LLMResponse.
Record t : Type := mk {
  content : string;
  model : string;
  input_tokens : Z;
  output_tokens : Z;
  latency_ms : Z;
  timestamp : string;
  raw_response : option (list (string * Json.t))
}.
End LLMResponse.

(** [asdict(response)] *)
Definition asdict_response (r : LLMResponse.t) : Json.t :=
  Json.Obj
    [ ("content", Json.Str (LLMResponse.content r));
      ("model", Json.Str (LLMResponse.model r));
      ("input_tokens", Json.Int (LLMResponse.input_tokens r));
      ("output_tokens", Json.Int (LLMResponse.output_tokens r));
      ("latency_ms", Json.Int (LLMResponse.latency_ms r));
      ("timestamp", Json.Str (LLMResponse.timestamp r));
      ("raw_response",
        match LLMResponse.raw_response r with
        | Some members => Json.Obj members
        | None => Json.Null
        end) ].

Definition save_response (response : LLMResponse.t) (path : string) (d : disk)
    : outcome unit * disk :=
  dump_json (asdict_response response) path d.

Definition response_fields : list string :=
  [ "content"; "model"; "input_tokens"; "output_tokens"; "latency_ms";
    "timestamp"; "raw_response" ].

Definition response_required : list string :=
  [ "content"; "model"; "input_tokens"; "output_tokens"; "latency_ms";
    "timestamp" ].

(** An [Optional[dict]] field with default [None]. *)
Definition as_optional_dict (v : option Json.t)
    : option (option (list (string * Json.t))) :=
  match v with
  | None => Some None
  | Some Json.Null => Some None
  | Some (Json.Obj members) => Some (Some members)
  | Some _ => None
  end.

Definition typed_response (kwargs : list (string * Json.t)) : option LLMResponse.t :=
  content ← lookup_key "content" kwargs ≫= as_str;
  model ← lookup_key "model" kwargs ≫= as_str;
  input_tokens ← lookup_key "input_tokens" kwargs ≫= as_int;
  output_tokens ← lookup_key "output_tokens" kwargs ≫= as_int;
  latency_ms ← lookup_key "latency_ms" kwargs ≫= as_int;
  timestamp ← lookup_key "timestamp" kwargs ≫= as_str;
  raw_response ← as_optional_dict (lookup_key "raw_response" kwargs);
  Some (LLMResponse.mk content model input_tokens output_tokens latency_ms
          timestamp raw_response).

(** As with [load_eval], no type is checked: [None] stands for a response
    whose values have not the declared types. *)
Definition load_response (path : string) (d : disk) : outcome (option LLMResponse.t) :=
  data ← load_json path d;
  match data with
  | Json.Obj members =>
      if accepts response_fields response_required members
      then Done (typed_response members)
      else Failed TypeError
  | _ => Failed TypeError
  end.

Definition sample_response : LLMResponse.t :=
  LLMResponse.mk "Revenue grew 12% year over year." "gpt-4o" 1200 300 800
    "2024-12-03T10:00:05"
    (Some [ ("id", Json.Str "chatcmpl-1");
            ("usage", Json.Obj [ ("prompt_tokens", Json.Int 1200);
                                 ("completion_tokens", Json.Int 300) ]);
            ("system_fingerprint", Json.Null) ]).

(** * Parsed documents on disk ([src/lib/parse.py])

    [save_parsed] and [load_parsed] work in one directory.  The model
    follows what is at [output_dir]: nothing, a file, or a directory with
    its entries.  A file written by [json.dump] is the value its text
    encodes, a file written as text is that text; files are opened in text
    mode with the POSIX line separator, so that text is written as it is
    and read with universal newlines.  Strings are taken to be encodable
    in the encoding of the files. *)

Inductive fnode : Type :=
| TextFile (s : string)
| JsonFile (j : Json.t)
| Folder (entries : gmap string fnode).

Module ParsedDocument.
Record t : Type := mk {
  source_path : string;
  parser : string;
  text : string;
  pages : list string;
  tables : list (list (string * Json.t));
  metadata : list (string * Json.t)
}.
End ParsedDocument.

(** Steps that change the entries of a directory and may raise; what was
    written before an exception stays written. *)
Definition FS (A : Type) : Type :=
  gmap string fnode -> outcome A * gmap string fnode.

Definition and_then {A B : Type} (c : FS A) (k : A -> FS B) : FS B :=
  fun entries =>
    match c entries with
    | (Done a, entries') => k a entries'
    | (Failed e, entries') => (Failed e, entries')
    end.

Definition skip : FS unit := fun entries => (Done tt, entries).

Notation "c1 >> c2" := (and_then c1 (fun _ => c2))
  (at level 61, left associativity).

(** [os.makedirs(path, exist_ok=True)] on what is at [path]: the entries
    of the directory, created empty when nothing is there. *)
Definition makedirs (at_path : option fnode) : outcome (gmap string fnode) :=
  match at_path with
  | None => Done ∅
  | Some (Folder entries) => Done entries
  | Some _ => Failed Unwritable
  end.

(** [with open(join(dir, name), "w") as f: ...]: a directory of that name
    is in the way; a file is replaced. *)
Definition write_file (name : string) (content : fnode) : FS unit :=
  fun entries =>
    match entries !! name with
    | Some (Folder _) => (Failed Unwritable, entries)
    | _ => (Done tt, <[name := content]> entries)
    end.

(** [f"{n:03d}"] for a positive [n] *)
Definition zero_pad (width : nat) (s : string) : string :=
  String.concat "" (repeat "0" (width - String.length s)) ++ s.

(** [f"page_{i + 1:03d}.txt"] *)
Definition page_name (i : nat) : string :=
  "page_" ++ zero_pad 3 (NilZero.string_of_uint (Nat.to_uint (S i))) ++ ".txt".

(** The loop [for i, page in enumerate(doc.pages)], from index [i] on. *)
Fixpoint write_pages (pages : list string) (i : nat) : FS unit :=
  match pages with
  | [] => skip
  | page :: rest =>
      write_file (page_name i) (TextFile page) >> write_pages rest (S i)
  end.

Definition write_pages_dir (pages : list string) : FS unit :=
  fun entries =>
    match makedirs (entries !! "pages") with
    | Failed e => (Failed e, entries)
    | Done folder =>
        let (r, folder') := write_pages pages 0 folder in
        (r, <["pages" := Folder folder']> entries)
    end.

Definition metadata_json (doc : ParsedDocument.t) : Json.t :=
  Json.Obj [ ("source_path", Json.Str (ParsedDocument.source_path doc));
             ("parser", Json.Str (ParsedDocument.parser doc));
             ("metadata", Json.Obj (ParsedDocument.metadata doc)) ].

Definition tables_json (doc : ParsedDocument.t) : Json.t :=
  Json.Arr (map Json.Obj (ParsedDocument.tables doc)).

Definition save_into (doc : ParsedDocument.t) : FS unit :=
  write_file "text.txt" (TextFile (ParsedDocument.text doc)) >>
  (match ParsedDocument.pages doc with
   | [] => skip
   | _ => write_pages_dir (ParsedDocument.pages doc)
   end) >>
  (match ParsedDocument.tables doc with
   | [] => skip
   | _ => write_file "tables.json" (JsonFile (tables_json doc))
   end) >>
  write_file "metadata.json" (JsonFile (metadata_json doc)).

(** [save_parsed]; [at_dir] is what is at [output_dir]. *)
Definition save_parsed (doc : ParsedDocument.t) (at_dir : option fnode)
    : outcome unit * option fnode :=
  match makedirs at_dir with
  | Failed e => (Failed e, at_dir)
  | Done entries =>
      let (r, entries') := save_into doc entries in
      (r, Some (Folder entries'))
  end.

(** Universal newlines: a text file is read with ["\r\n"] and ["\r"]
    turned into ["\n"]. *)
Fixpoint universal_newlines (s : string) : string :=
  match s with
  | EmptyString => EmptyString
  | String c rest =>
      if Ascii.eqb c "013"%char then
        match rest with
        | String c' rest' =>
            if Ascii.eqb c' "010"%char then String "010"%char (universal_newlines rest')
            else String "010"%char (universal_newlines rest)
        | EmptyString => String "010"%char EmptyString
        end
      else String c (universal_newlines rest)
  end.

(** [with open(path) as f: f.read()].  (What reading the text of a JSON
    file gives is outside the model.) *)
Definition load_text (at_path : option fnode) : outcome string :=
  match at_path with
  | Some (TextFile s) => Done (universal_newlines s)
  | Some (JsonFile _) => Failed OutsideModel
  | _ => Failed Unreadable
  end.

(** [with open(path) as f: json.load(f)].  (What parsing a text file
    gives is outside the model.) *)
Definition load_data (at_path : option fnode) : outcome Json.t :=
  match at_path with
  | Some (JsonFile j) => Done j
  | Some (TextFile _) => Failed OutsideModel
  | _ => Failed Unreadable
  end.

(** [os.listdir]: the names, in no particular order. *)
Definition listdir (folder : gmap string fnode) : list string :=
  map fst (map_to_list folder).

(** The order of [sorted] on strings. *)
Definition string_le : relation string := fun a b => String.leb a b = true.

#[local] Instance string_le_dec : RelDecision string_le :=
  fun a b => decide (String.leb a b = true).

Definition sorted (names : list string) : list string := merge_sort string_le names.

Definition as_dicts (v : Json.t) : option (list (list (string * Json.t))) :=
  match v with
  | Json.Arr items => mapM as_dict items
  | _ => None
  end.

(** [tables = []], replaced by the content of [tables.json] when
    [os.path.exists] finds anything of that name. *)
Definition load_tables (entries : gmap string fnode) : outcome Json.t :=
  match entries !! "tables.json" with
  | None => Done (Json.Arr [])
  | at_path => load_data at_path
  end.

(** [pages = []], filled from the files of [pages] in the order of their
    names when [os.path.isdir] finds that directory. *)
Definition load_pages (entries : gmap string fnode) : outcome (list string) :=
  match entries !! "pages" with
  | Some (Folder folder) =>
      mapM (fun name => load_text (folder !! name)) (sorted (listdir folder))
  | _ => Done []
  end.

(** [load_parsed]; as with the other loaders no type is checked, and
    [None] stands for a document whose values have not the declared
    types. *)
Definition load_parsed (at_dir : option fnode) : outcome (option ParsedDocument.t) :=
  let entries := match at_dir with Some (Folder entries) => entries | _ => ∅ end in
  text ← load_text (entries !! "text.txt");
  meta ← load_data (entries !! "metadata.json");
  tables ← load_tables entries;
  pages ← load_pages entries;
  source_path ← subscript meta "source_path";
  parser ← subscript meta "parser";
  metadata ← subscript meta "metadata";
  Done (source_path ← as_str source_path;
        parser ← as_str parser;
        tables ← as_dicts tables;
        metadata ← as_dict metadata;
        Some (ParsedDocument.mk source_path parser text pages tables metadata)).

(** ** The properties of the parsed documents on disk *)

(** No carriage return in [s]. *)
Definition no_cr (s : string) : Prop := ~ In "013"%char (list_ascii_of_string s).

(** [doc] as a reader in text mode sees it. *)
Definition as_read (doc : ParsedDocument.t) : ParsedDocument.t :=
  ParsedDocument.mk (ParsedDocument.source_path doc) (ParsedDocument.parser doc)
    (universal_newlines (ParsedDocument.text doc))
    (map universal_newlines (ParsedDocument.pages doc))
    (ParsedDocument.tables doc) (ParsedDocument.metadata doc).

(** The names of the first 999 pages. *)
Definition page_names : list string := map page_name (seq 0 999).

(** The order in which the files of 1000 pages are read: those of pages 1
    to 100, that of page 1000, those of pages 101 to 999. *)
Definition thousand_order : list nat := (seq 0 100 ++ [999%nat] ++ seq 100 899)%list.

Definition long_document : ParsedDocument.t :=
  ParsedDocument.mk "annual.pdf" "pypdf" "" (map page_name (seq 0 1000)) [] [].

Definition paged_document : ParsedDocument.t :=
  ParsedDocument.mk "deal.pdf" "pdfplumber" "Page one

Page two"
    [ "Page one"; "Page two" ]
    [ [ ("page", Json.Int 1);
        ("data", Json.Arr [ Json.Arr [ Json.Str "Revenue"; Json.Str "12" ] ]) ] ]
    [ ("num_pages", Json.Int 2) ].

Definition flat_document : ParsedDocument.t :=
  ParsedDocument.mk "deal.pdf" "marker" "# Deal" [] [] [].

(** The page files that [save_parsed] writes, from index [i] on. *)
Fixpoint page_files (pages : list string) (i : nat) : list (string * fnode) :=
  match pages with
  | [] => []
  | page :: rest => (page_name i, TextFile page) :: page_files rest (S i)
  end.

(** The entries of a directory after [doc] has been saved into it. *)
Definition stored (doc : ParsedDocument.t) (entries : gmap string fnode)
    : gmap string fnode :=
  let e1 := <["text.txt" := TextFile (ParsedDocument.text doc)]> entries in
  let e2 :=
    match ParsedDocument.pages doc with
    | [] => e1
    | pages => <["pages" := Folder (list_to_map (page_files pages 0))]> e1
    end in
  let e3 :=
    match ParsedDocument.tables doc with
    | [] => e2
    | _ => <["tables.json" := JsonFile (tables_json doc)]> e2
    end in
  <["metadata.json" := JsonFile (metadata_json doc)]> e3.

(** [b] with the pages and tables of [a]. *)
Definition with_pages_of (a b : ParsedDocument.t) : ParsedDocument.t :=
  ParsedDocument.mk (ParsedDocument.source_path b) (ParsedDocument.parser b)
    (ParsedDocument.text b) (ParsedDocument.pages a) (ParsedDocument.tables a)
    (ParsedDocument.metadata b).

(** The strict order of strings. *)
Definition string_lt : relation string := fun a b => String.ltb a b = true.

#[local] Instance string_lt_dec : RelDecision string_lt :=
  fun a b => decide (String.ltb a b = true).

(** * Facts about the floating-point model *)

Section Rounding_facts.

Lemma digits2_pos_log2 (p : positive) :
  Zpos (digits2_pos p) = Z.log2 (Zpos p) + 1.
Proof.
  induction p as [p IH | p IH |]; cbn [digits2_pos]; trivial.
  - rewrite Pos2Z.inj_succ, IH, (Pos2Z.inj_xI p), Z.log2_succ_double; lia.
  - rewrite Pos2Z.inj_succ, IH, (Pos2Z.inj_xO p), Z.log2_double; lia.
Qed.

Lemma Zdigits2_log2 (m : Z) : 0 < m -> Zdigits2 m = Z.log2 m + 1.
Proof.
  destruct m as [| p | p]; try lia. intros _. apply digits2_pos_log2.
Qed.

(** [m < 2 ^ k] bounds the number of digits of [m] by [k]. *)
Lemma Zdigits2_le (m k : Z) : 0 <= m -> 0 <= k -> m < 2 ^ k -> Zdigits2 m <= k.
Proof.
  intros Hm Hk Hlt. destruct (Z.eq_dec m 0) as [-> | Hne]; [cbn; lia |].
  rewrite Zdigits2_log2 by lia.
  assert (Z.log2 m < k) by (apply Z.log2_lt_pow2; lia). lia.
Qed.

Lemma Zdigits2_ge_pow2 (m : Z) : 0 < m -> 2 ^ (Zdigits2 m - 1) <= m.
Proof.
  intros Hm. rewrite Zdigits2_log2 by lia.
  replace (Z.log2 m + 1 - 1) with (Z.log2 m) by lia. apply Z.log2_spec. lia.
Qed.

Lemma shr_1_m (mrs : shr_record) :
  0 <= shr_m mrs -> shr_m (shr_1 mrs) = shr_m mrs / 2.
Proof.
  destruct mrs as [m r s]. cbn [shr_m shr_1]. intros Hm.
  destruct m as [| [p | p |] | p]; cbn [shr_m]; try lia; try reflexivity.
  - rewrite (Pos2Z.inj_xI p). apply Z.div_unique with (r := 1); lia.
  - rewrite (Pos2Z.inj_xO p). apply Z.div_unique with (r := 0); lia.
Qed.

Lemma iter_shr_1_m (p : positive) (mrs : shr_record) :
  0 <= shr_m mrs ->
  shr_m (SpecFloat.iter_pos shr_1 p mrs) = shr_m mrs / 2 ^ Zpos p.
Proof.
  revert mrs.
  assert (Hstep : forall mrs, 0 <= shr_m mrs -> 0 <= shr_m (shr_1 mrs)).
  { intros mrs H. rewrite shr_1_m by trivial. apply Z.div_pos; lia. }
  induction p as [p IH | p IH |]; intros mrs Hm; cbn [SpecFloat.iter_pos].
  - assert (H1 : 0 <= shr_m (shr_1 mrs)) by auto.
    assert (H2 : 0 <= shr_m (SpecFloat.iter_pos shr_1 p (shr_1 mrs))).
    { rewrite IH by trivial. apply Z.div_pos; lia. }
    rewrite IH, IH, shr_1_m by trivial.
    rewrite !Z.div_div by lia. f_equal.
    rewrite (Pos2Z.inj_xI p).
    replace (2 * Z.pos p + 1) with (1 + Z.pos p + Z.pos p) by lia.
    rewrite !Z.pow_add_r by lia. change (2 ^ 1) with 2. ring.
  - assert (H2 : 0 <= shr_m (SpecFloat.iter_pos shr_1 p mrs)).
    { rewrite IH by trivial. apply Z.div_pos; lia. }
    rewrite IH, IH by trivial.
    rewrite Z.div_div by lia. f_equal.
    rewrite (Pos2Z.inj_xO p).
    replace (2 * Z.pos p) with (Z.pos p + Z.pos p) by lia.
    rewrite Z.pow_add_r by lia. ring.
  - rewrite shr_1_m by trivial. reflexivity.
Qed.

Lemma shr_record_of_loc_m (m : Z) (l : location) :
  shr_m (shr_record_of_loc m l) = m.
Proof. destruct l as [| []]; reflexivity. Qed.

(** What [shr_fexp] does to the mantissa and the exponent. *)
Lemma shr_fexp_spec (m e : Z) (l : location) :
  0 <= m ->
  let n := fexp prec emax (Zdigits2 m + e) - e in
  let r := shr_fexp prec emax m e l in
  (n <= 0 /\ shr_m (fst r) = m /\ snd r = e) \/
  (0 < n /\ shr_m (fst r) = m / 2 ^ n /\ snd r = e + n).
Proof.
  intros Hm n r. subst r. unfold shr_fexp. fold n. unfold shr.
  destruct n as [| q | q] eqn:En.
  - left. cbn [fst snd]. rewrite shr_record_of_loc_m. lia.
  - right. cbn [fst snd]. rewrite iter_shr_1_m by (rewrite shr_record_of_loc_m; lia).
    rewrite shr_record_of_loc_m. lia.
  - left. cbn [fst snd]. rewrite shr_record_of_loc_m. lia.
Qed.

Lemma round_nearest_even_bounds (m : Z) (l : location) :
  m <= round_nearest_even m l <= m + 1.
Proof.
  destruct l as [| []]; cbn [round_nearest_even]; try lia.
  destruct (Z.even m); lia.
Qed.

Lemma fexp_eq (x : Z) : fexp prec emax x = Z.max (x - 53) (-1074).
Proof. unfold fexp, emin, prec, emax. lia. Qed.

Lemma shr_fexp_shifted (m e : Z) (l : location) :
  0 <= m ->
  shifted m e (shr_m (fst (shr_fexp prec emax m e l)))
    (snd (shr_fexp prec emax m e l)).
Proof.
  intros Hm. pose proof (shr_fexp_spec m e l Hm) as H. cbv zeta in H.
  rewrite fexp_eq in H. unfold shifted. cbv zeta.
  destruct H as [(H1 & H2 & H3) | (H1 & H2 & H3)]; [left | right].
  - repeat split; trivial. lia.
  - repeat split; trivial; try lia.
Qed.

Lemma shifted_nonneg (m e m' e' : Z) : 0 <= m -> shifted m e m' e' -> 0 <= m'.
Proof.
  intros Hm [(_ & -> & _) | (Hx & -> & _)]; [lia |].
  apply Z.div_pos; [lia |]. apply Z.pow_pos_nonneg; lia.
Qed.

(** The two shifts and the rounding between them that make up
    [binary_round_aux]. *)
Lemma binary_round_aux_cases (s : bool) (m e : Z) (l : location) :
  0 <= m ->
  exists m1 e1 m2 m3 e3,
    shifted m e m1 e1 /\
    m1 <= m2 <= m1 + 1 /\
    shifted m2 e1 m3 e3 /\
    binary_round_aux prec emax s m e l =
      match m3 with
      | Z0 => S754_zero s
      | Zpos p => if e3 <=? 971 then S754_finite s p e3 else S754_infinity s
      | Zneg _ => S754_nan
      end.
Proof.
  intros Hm. unfold binary_round_aux.
  pose proof (shr_fexp_shifted m e l Hm) as H1.
  destruct (shr_fexp prec emax m e l) as [mrs1 e1]. cbn [fst snd] in H1.
  set (m2 := round_nearest_even (shr_m mrs1) (loc_of_shr_record mrs1)).
  assert (Hm1 : 0 <= shr_m mrs1) by (eapply shifted_nonneg; eauto).
  pose proof (round_nearest_even_bounds (shr_m mrs1) (loc_of_shr_record mrs1)) as Hr.
  fold m2 in Hr.
  pose proof (shr_fexp_shifted m2 e1 loc_Exact ltac:(lia)) as H2.
  destruct (shr_fexp prec emax m2 e1 loc_Exact) as [mrs2 e3]. cbn [fst snd] in H2.
  exists (shr_m mrs1), e1, m2, (shr_m mrs2), e3.
  split; [exact H1 |]. split; [exact Hr |]. split; [exact H2 |]. reflexivity.
Qed.

(** A shift keeps the value below [2 ^ K]. *)
Lemma shifted_bound (K m e m' e' : Z) :
  0 <= m -> -1074 <= K -> e <= K -> m < 2 ^ (K - e) ->
  shifted m e m' e' ->
  m' < 2 ^ (K - e') /\ e' <= K /\ e' <= Z.max e (Z.max (K - 53) (-1074)).
Proof.
  intros Hm HK He Hlt Hs.
  assert (Hd : Zdigits2 m <= K - e) by (apply Zdigits2_le; lia).
  destruct Hs as [(Hx & -> & ->) | (Hx & -> & ->)]; [lia |].
  set (x := Z.max (Zdigits2 m + e - 53) (-1074)) in *.
  repeat split; try lia.
  apply Z.div_lt_upper_bound; [apply Z.pow_pos_nonneg; lia |].
  rewrite <- Z.pow_add_r by lia.
  replace (x - e + (K - x)) with (K - e) by lia. trivial.
Qed.

(** A shift of a positive mantissa above the underflow threshold leaves
    it positive. *)
Lemma shifted_pos (m e m' e' : Z) :
  0 < m -> -1074 < Zdigits2 m + e ->
  shifted m e m' e' ->
  0 < m' /\ (e' = e /\ m' = m \/ -1074 <= e').
Proof.
  intros Hm Hd [(Hx & -> & ->) | (Hx & -> & ->)]; [lia |].
  set (x := Z.max (Zdigits2 m + e - 53) (-1074)) in *.
  split; [| lia].
  apply Z.div_str_pos. split; [apply Z.pow_pos_nonneg; lia |].
  transitivity (2 ^ (Zdigits2 m - 1)); [| apply Zdigits2_ge_pow2; lia].
  apply Z.pow_le_mono_r; lia.
Qed.

Lemma Zdigits2_mono (a b : Z) : 0 < a -> a <= b -> Zdigits2 a <= Zdigits2 b.
Proof.
  intros Ha Hab. rewrite !Zdigits2_log2 by lia.
  pose proof (Z.log2_le_mono a b Hab). lia.
Qed.

Lemma bounded_by_finite (K : Z) (x : float) : bounded_by K x -> is_finite x = true.
Proof. destruct x; cbn; intuition. Qed.

Lemma bounded_by_mono (K K' : Z) (x : float) :
  K <= K' -> bounded_by K x -> bounded_by K' x.
Proof.
  intros HK. destruct x as [| | | s m e]; cbn; trivial.
  intros (Hm & He & HeK). repeat split; try lia.
  eapply Z.lt_le_trans; [exact Hm |]. apply Z.pow_le_mono_r; lia.
Qed.

(** Rounding a value below [2 ^ K], [K <= 1023], never overflows: the
    result is below [2 ^ (K + 1)]. *)
Lemma binary_round_aux_bounded (K : Z) (s : bool) (m e : Z) (l : location) :
  0 <= m -> -1074 <= K <= 1023 -> e <= K -> e <= 971 -> m < 2 ^ (K - e) ->
  bounded_by (K + 1) (binary_round_aux prec emax s m e l).
Proof.
  intros Hm HK HeK He Hlt.
  destruct (binary_round_aux_cases s m e l Hm)
    as (m1 & e1 & m2 & m3 & e3 & H1 & Hr & H2 & ->).
  pose proof (shifted_nonneg _ _ _ _ Hm H1) as Hm1.
  destruct (shifted_bound K m e m1 e1 Hm ltac:(lia) HeK Hlt H1) as (B1 & B2 & B3).
  assert (Hm2 : m2 < 2 ^ (K + 1 - e1)).
  { replace (K + 1 - e1) with (Z.succ (K - e1)) by lia.
    rewrite Z.pow_succ_r by lia. lia. }
  destruct (shifted_bound (K + 1) m2 e1 m3 e3
              ltac:(lia) ltac:(lia) ltac:(lia) Hm2 H2) as (B4 & B5 & B6).
  pose proof (shifted_nonneg m2 e1 m3 e3 ltac:(lia) H2) as Hm3.
  destruct m3 as [| q | q]; [exact I | | lia].
  destruct (Z.leb_spec e3 971); [| lia].
  cbn [bounded_by]. auto.
Qed.

Lemma binary_round_aux_finite (K : Z) (s : bool) (m e : Z) (l : location) :
  0 <= m -> -1074 <= K <= 1023 -> e <= K -> e <= 971 -> m < 2 ^ (K - e) ->
  is_finite (binary_round_aux prec emax s m e l) = true.
Proof.
  intros. apply bounded_by_finite with (K := K + 1).
  apply binary_round_aux_bounded; trivial.
Qed.

(** Rounding a positive value above the underflow threshold is not zero. *)
Lemma binary_round_aux_nonzero (s : bool) (m e : Z) (l : location) :
  0 < m -> -1074 < Zdigits2 m + e ->
  is_zero (binary_round_aux prec emax s m e l) = false.
Proof.
  intros Hm Hd.
  destruct (binary_round_aux_cases s m e l ltac:(lia))
    as (m1 & e1 & m2 & m3 & e3 & H1 & Hr & H2 & ->).
  destruct (shifted_pos m e m1 e1 Hm Hd H1) as (Hm1 & Hc).
  assert (Hd2 : -1074 < Zdigits2 m2 + e1).
  { destruct Hc as [(-> & ->) | Hc].
    - pose proof (Zdigits2_mono m m2 Hm ltac:(lia)). lia.
    - assert (0 < Zdigits2 m2) by (rewrite Zdigits2_log2 by lia;
        pose proof (Z.log2_nonneg m2); lia).
      lia. }
  destruct (shifted_pos m2 e1 m3 e3 ltac:(lia) Hd2 H2) as (Hm3 & _).
  destruct m3 as [| p | p]; try lia.
  destruct (e3 <=? 971); reflexivity.
Qed.

(** The quotient and exponent computed by the division core. *)
Lemma SFdiv_core_binary_spec (m1 e1 m2 e2 : Z) :
  0 < m1 -> 0 < m2 ->
  exists q e' l,
    SFdiv_core_binary prec emax m1 e1 m2 e2 = (q, e', l) /\
    e' <= e1 - e2 /\
    q = (m1 * 2 ^ (e1 - e2 - e')) / m2.
Proof.
  intros H1 H2. unfold SFdiv_core_binary.
  set (e' := Z.min _ (e1 - e2)).
  assert (He : e' <= e1 - e2) by (subst e'; lia).
  set (m' := match e1 - e2 - e' with
             | Z0 => m1 | Zpos _ => Z.shiftl m1 (e1 - e2 - e') | Zneg _ => 0
             end).
  assert (Hm' : m' = m1 * 2 ^ (e1 - e2 - e')).
  { subst m'. destruct (e1 - e2 - e') as [| d | d] eqn:Ed.
    - cbn. lia.
    - apply Z.shiftl_mul_pow2. lia.
    - lia. }
  pose proof (Z.div_eucl_eq m' m2 ltac:(lia)) as Hq.
  assert (Hdiv : fst (Z.div_eucl m' m2) = m' / m2) by reflexivity.
  destruct (Z.div_eucl m' m2) as [q r]. cbn [fst] in Hdiv.
  exists q, e', (new_location m2 r). repeat split; trivial. congruence.
Qed.

(** The correctly rounded quotient of two integers is finite when the
    dividend is below [2 ^ 1000] in magnitude. *)
Lemma div_exact_bounded (a b : Z) :
  0 < b -> Z.abs a < 2 ^ 1000 -> bounded_by 1001 (div (exact a) (exact b)).
Proof.
  intros Hb Ha. destruct b as [| pb | pb]; try lia.
  assert (Hgen : forall s pa, Z.pos pa < 2 ^ 1000 ->
            bounded_by 1001 (div (S754_finite s pa 0) (S754_finite false pb 0))).
  { intros s pa Hpa. unfold div, SFdiv.
    destruct (SFdiv_core_binary_spec (Z.pos pa) 0 (Z.pos pb) 0)
      as (q & e' & l & -> & He & Hq); try lia.
    assert (Hpow : 0 < 2 ^ (0 - 0 - e')) by (apply Z.pow_pos_nonneg; lia).
    assert (Hq0 : 0 <= q) by (subst q; apply Z.div_pos; nia).
    apply binary_round_aux_bounded with (K := 1000); try lia.
    assert (Hle : q <= Z.pos pa * 2 ^ (0 - 0 - e')).
    { subst q. apply Z.div_le_upper_bound; [lia |]. nia. }
    replace (1000 - e') with (1000 + (0 - 0 - e')) by lia.
    rewrite Z.pow_add_r by lia. nia. }
  destruct a as [| pa | pa]; [exact I | |]; apply Hgen; lia.
Qed.

Lemma div_exact_finite (a b : Z) :
  0 < b -> Z.abs a < 2 ^ 1000 -> is_finite (div (exact a) (exact b)) = true.
Proof.
  intros Hb Ha. apply bounded_by_finite with (K := 1001).
  apply div_exact_bounded; trivial.
Qed.

Lemma int_truediv_ok (a b : Z) :
  0 < b -> Z.abs a < 2 ^ 1000 ->
  exists q, int_truediv a b = Ok q /\ is_finite q = true.
Proof.
  intros Hb Ha. unfold int_truediv.
  destruct (Z.eqb_spec b 0) as [-> | _]; [lia |].
  pose proof (div_exact_finite a b Hb Ha) as Hf.
  exists (div (exact a) (exact b)). split; [| exact Hf].
  destruct (div (exact a) (exact b)); cbn in *; congruence.
Qed.

Lemma iter_xO_pow2 (m d : positive) :
  Z.pos (Pos.iter xO m d) = Z.pos m * 2 ^ Z.pos d.
Proof.
  induction d as [| d IH] using Pos.peano_ind.
  - cbn. lia.
  - rewrite Pos.iter_succ, (Pos2Z.inj_xO (Pos.iter xO m d)), IH.
    rewrite Pos2Z.inj_succ, Z.pow_succ_r by lia. ring.
Qed.

Lemma shl_align_spec (mx : positive) (ex ex' : Z) :
  let r := shl_align mx ex ex' in
  snd r = Z.min ex ex' /\ Z.pos (fst r) = Z.pos mx * 2 ^ (ex - snd r).
Proof.
  unfold shl_align. destruct (ex' - ex) as [| d | d] eqn:Ed; cbn [fst snd].
  - split; [lia |]. rewrite Z.sub_diag. cbn. lia.
  - split; [lia |]. rewrite Z.sub_diag. cbn. lia.
  - split; [lia |]. rewrite iter_xO_pow2. f_equal. f_equal. lia.
Qed.

Lemma binary_round_bounded (K : Z) (s : bool) (m : positive) (e : Z) :
  -1074 <= K <= 1023 -> e <= 971 -> e <= K -> Z.pos m < 2 ^ (K - e) ->
  bounded_by (K + 1) (binary_round prec emax s m e).
Proof.
  intros HK He HeK Hm. unfold binary_round.
  pose proof (shl_align_spec m e (fexp prec emax (Z.pos (digits2_pos m) + e))) as Hs.
  cbv zeta in Hs. destruct (shl_align m e _) as [mz ez]. cbn [fst snd] in Hs.
  destruct Hs as [Hez Hmz].
  assert (Hpow : 0 < 2 ^ (e - ez)) by (apply Z.pow_pos_nonneg; lia).
  apply binary_round_aux_bounded; try lia.
  rewrite Hmz. replace (K - ez) with (K - e + (e - ez)) by lia.
  rewrite Z.pow_add_r by lia. nia.
Qed.

(** The product of two bounded numbers, the second with an exponent that
    is not positive. *)
Lemma mul_bounded (Kx Ky : Z) (x y : float) :
  bounded_by Kx x -> bounded_by Ky y ->
  (forall s m e, y = S754_finite s m e -> e <= 0) ->
  -1074 <= Kx + Ky <= 1023 ->
  bounded_by (Kx + Ky + 1) (mul x y).
Proof.
  intros Hx Hy Hey HK.
  destruct x as [sx | | | sx mx ex], y as [sy | | | sy my ey];
    cbn in Hx, Hy; try contradiction; try exact I.
  destruct Hx as (Hmx & Hex & HexK), Hy as (Hmy & _ & HeyK).
  pose proof (Hey sy my ey eq_refl) as Hey0.
  unfold mul, SFmul. apply binary_round_aux_bounded; try lia.
  rewrite Pos2Z.inj_mul.
  replace (Kx + Ky - (ex + ey)) with ((Kx - ex) + (Ky - ey)) by lia.
  rewrite Z.pow_add_r by lia.
  apply Z.mul_lt_mono_nonneg; lia.
Qed.

(** The sum of two bounded numbers. *)
Lemma add_bounded (K : Z) (x y : float) :
  bounded_by K x -> bounded_by K y -> -1074 <= K <= 1021 ->
  bounded_by (K + 2) (add x y).
Proof.
  intros Hx Hy HK.
  destruct x as [sx | | | sx mx ex], y as [sy | | | sy my ey];
    cbn in Hx, Hy; try contradiction.
  - unfold add, SFadd. destruct sx, sy; exact I.
  - apply bounded_by_mono with (K := K); [lia | exact Hy].
  - apply bounded_by_mono with (K := K); [lia | exact Hx].
  - destruct Hx as (Hmx & Hex & HexK), Hy as (Hmy & Hey & HeyK).
    unfold add, SFadd. set (ez := Z.min ex ey).
    pose proof (shl_align_spec mx ex ez) as Hax.
    pose proof (shl_align_spec my ey ez) as Hay. cbv zeta in Hax, Hay.
    destruct (shl_align mx ex ez) as [ax ex'], (shl_align my ey ez) as [ay ey'].
    cbn [fst snd] in *. destruct Hax as [-> Hax], Hay as [-> Hay].
    replace (Z.min ex ez) with ez in Hax by lia.
    replace (Z.min ey ez) with ez in Hay by lia.
    assert (Hbx : Z.pos ax < 2 ^ (K - ez)).
    { rewrite Hax. replace (K - ez) with (K - ex + (ex - ez)) by lia.
      rewrite Z.pow_add_r by lia.
      assert (0 < 2 ^ (ex - ez)) by (apply Z.pow_pos_nonneg; lia). nia. }
    assert (Hby : Z.pos ay < 2 ^ (K - ez)).
    { rewrite Hay. replace (K - ez) with (K - ey + (ey - ez)) by lia.
      rewrite Z.pow_add_r by lia.
      assert (0 < 2 ^ (ey - ez)) by (apply Z.pow_pos_nonneg; lia). nia. }
    assert (Hz : Z.abs (cond_Zopp sx (Z.pos ax) + cond_Zopp sy (Z.pos ay))
                 < 2 ^ (K + 1 - ez)).
    { replace (K + 1 - ez) with (Z.succ (K - ez)) by lia.
      rewrite Z.pow_succ_r by lia. destruct sx, sy; cbn [cond_Zopp]; lia. }
    replace (K + 2) with (K + 1 + 1) by lia.
    destruct (cond_Zopp sx (Z.pos ax) + cond_Zopp sy (Z.pos ay)) as [| z | z];
      cbn [binary_normalize]; [exact I | |];
      apply binary_round_bounded; lia.
Qed.

(** [x - x] is [+0.0] for a zero or a finite number. *)
Lemma sub_diag (x : float) : is_finite x = true -> sub x x = pzero.
Proof.
  destruct x as [s | | | s m e]; cbn [is_finite]; try discriminate; intros _.
  - destruct s; reflexivity.
  - unfold sub, SFsub. rewrite Z.sub_diag. reflexivity.
Qed.

Lemma within_tol_refl (x : float) : is_finite x = true -> within_tol x x = true.
Proof. intros Hx. unfold within_tol. rewrite sub_diag by exact Hx. reflexivity. Qed.

(** Every price of the table is positive, below 128, and has a negative
    exponent. *)
Lemma PRICING_ok (model : string) (pr : pricing) :
  PRICING !! model = Some pr ->
  price_ok (input pr) = true /\ price_ok (output pr) = true.
Proof.
  intros H. apply elem_of_list_to_map_2 in H.
  repeat (apply elem_of_cons in H; destruct H as [[= _ ->] | H];
          [split; vm_compute; reflexivity |]).
  apply elem_of_nil in H. contradiction.
Qed.

Lemma price_ok_bounded (x : float) :
  price_ok x = true ->
  bounded_by 7 x /\ (forall s m e, x = S754_finite s m e -> e <= 0).
Proof.
  destruct x as [| | | [] m e]; cbn [price_ok]; try discriminate.
  intros H. apply andb_true_iff in H. destruct H as [H1 H2].
  apply Z.ltb_lt in H1. apply Z.leb_le in H2. split.
  - cbn [bounded_by]. lia.
  - intros s' m' e' [= _ _ <-]. exact H2.
Qed.

(** [float(n)] for a positive [n] below [2 ^ 1023]: a non-zero finite
    number. *)
Lemma float_of_int_ok (n : Z) :
  0 < n < 2 ^ 1023 ->
  exists y, float_of_int n = Ok y /\ is_zero y = false /\ is_finite y = true.
Proof.
  intros [Hn Hlt]. destruct n as [| p | p]; try lia.
  unfold float_of_int, binary_normalize, binary_round.
  pose proof (shl_align_spec p 0 (fexp prec emax (Z.pos (digits2_pos p) + 0)))
    as Hs. cbv zeta in Hs. rewrite fexp_eq in Hs.
  destruct (shl_align p 0 _) as [mz ez]. cbn [fst snd] in Hs.
  destruct Hs as [Hez Hmz].
  assert (Hpow : 0 < 2 ^ (0 - ez)) by (apply Z.pow_pos_nonneg; lia).
  assert (Hfin : is_finite (binary_round_aux prec emax false (Z.pos mz) ez loc_Exact)
                 = true).
  { apply binary_round_aux_finite with (K := 1023); try lia.
    rewrite Hmz. replace (1023 - ez) with (1023 + (0 - ez)) by lia.
    rewrite Z.pow_add_r by lia. nia. }
  assert (Hnz : is_zero (binary_round_aux prec emax false (Z.pos mz) ez loc_Exact)
                = false).
  { apply binary_round_aux_nonzero; [lia |].
    rewrite Zdigits2_log2 by lia. pose proof (Z.log2_nonneg (Z.pos mz)). lia. }
  destruct (binary_round_aux prec emax false (Z.pos mz) ez loc_Exact) eqn:E;
    cbn in Hfin, Hnz; try discriminate.
  eexists. split; [reflexivity |]. split; reflexivity.
Qed.

End Rounding_facts.

(** * Sums *)

Section Sums.

Lemma fold_left_add_Zsum (l : list Z) (a : Z) :
  fold_left Z.add l a = a + Zsum l.
Proof.
  revert a. induction l as [| x l IH]; intros a; cbn [fold_left Zsum fold_right].
  - lia.
  - rewrite IH. unfold Zsum. lia.
Qed.

(** The accumulating loop of [sum] computes the sum. *)
Lemma py_sum_Zsum (l : list Z) : py_sum l = Zsum l.
Proof. unfold py_sum. rewrite fold_left_add_Zsum. lia. Qed.

Lemma py_sum_float_snoc (l : list float) (x : float) :
  py_sum_float (l ++ [x]) = add (py_sum_float l) x.
Proof. unfold py_sum_float. rewrite fold_left_app. reflexivity. Qed.

Lemma running_total_app (l l' : list float) (n : nat) :
  (n <= length l)%nat -> running_total (l ++ l') n = running_total l n.
Proof.
  induction n as [| n IH]; intros Hn; cbn [running_total]; [reflexivity |].
  rewrite IH by lia. f_equal. apply app_nth1. lia.
Qed.

(** The float accumulation is the running total over the whole list. *)
Lemma py_sum_float_running (l : list float) :
  py_sum_float l = running_total l (length l).
Proof.
  induction l as [| x l IH] using rev_ind; [reflexivity |].
  rewrite py_sum_float_snoc, length_app, Nat.add_comm. cbn [length Nat.add running_total].
  rewrite running_total_app by lia. rewrite IH. f_equal.
  rewrite app_nth2 by lia. rewrite Nat.sub_diag. reflexivity.
Qed.

End Sums.

(** * aggregate_costs *)

Section Aggregation.

Lemma read_list_some (w : world) (p : loc) (es : list CostEntry.t) :
  heap w !! p = Some es -> read_list p w = (Ok es, w).
Proof. intros H. unfold read_list. rewrite H. reflexivity. Qed.

Lemma len_pos {A : Type} (x : A) (l : list A) : 0 < len (x :: l).
Proof. unfold len. cbn [length]. lia. Qed.

(** The world is the same after [aggregate_costs], whatever it returns
    or raises. *)
Lemma aggregate_costs_frame (w : world) (p : loc) (rid : string) :
  snd (aggregate_costs p rid w) = w.
Proof.
  unfold aggregate_costs, bind, read_list.
  destruct (default [] (heap w !! p)) as [| first rest]; [reflexivity |].
  unfold lift, ret.
  destruct (int_truediv _ _); [| reflexivity].
  destruct (float_div_int _ _); reflexivity.
Qed.

(** What a returned run is made of. *)
Lemma aggregate_costs_inv (w w' : world) (p : loc) (es : list CostEntry.t)
    (rid : string) (r : RunCosts.t) :
  heap w !! p = Some es ->
  aggregate_costs p rid w = (Ok r, w') ->
  w' = w /\
  exists first rest avg cpq,
    es = first :: rest /\
    int_truediv (py_sum (map CostEntry.latency_ms es)) (len es) = Ok avg /\
    float_div_int (py_sum_float (map CostEntry.total_cost es)) (len es) = Ok cpq /\
    r = RunCosts.mk rid p
          (py_sum (map CostEntry.input_tokens es))
          (py_sum (map CostEntry.output_tokens es))
          (py_sum (map CostEntry.input_tokens es)
           + py_sum (map CostEntry.output_tokens es))
          (py_sum_float (map CostEntry.total_cost es))
          (py_sum (map CostEntry.latency_ms es))
          avg cpq
          (CostEntry.model first) (CostEntry.timestamp first)
          (CostEntry.timestamp (List.last es first)).
Proof.
  intros Hp Hrun.
  pose proof (aggregate_costs_frame w p rid) as Hw.
  rewrite Hrun in Hw. cbn [snd] in Hw. split; [exact Hw |].
  unfold aggregate_costs, bind in Hrun. rewrite (read_list_some _ _ _ Hp) in Hrun.
  destruct es as [| first rest]; [discriminate |].
  unfold lift, ret in Hrun.
  destruct (int_truediv _ _) as [avg |]; [| discriminate].
  destruct (float_div_int _ _) as [cpq |]; [| discriminate].
  injection Hrun as <- _.
  exists first, rest, avg, cpq. repeat split.
Qed.

Lemma float_of_int_pos (n : Z) (y : float) :
  0 < n -> float_of_int n = Ok y -> is_zero y = false.
Proof.
  intros Hn. destruct n as [| q | q]; try lia.
  unfold float_of_int, binary_normalize, binary_round.
  pose proof (shl_align_spec q 0 (fexp prec emax (Z.pos (digits2_pos q) + 0)))
    as Hs. cbv zeta in Hs. rewrite fexp_eq in Hs.
  destruct (shl_align q 0 _) as [mz ez]. cbn [fst snd] in Hs.
  assert (Hnz : is_zero (binary_round_aux prec emax false (Z.pos mz) ez loc_Exact)
                = false).
  { apply binary_round_aux_nonzero; [lia |].
    rewrite Zdigits2_log2 by lia. pose proof (Z.log2_nonneg (Z.pos mz)). lia. }
  destruct (is_infinite _); [discriminate |]. intros [= <-]. exact Hnz.
Qed.

(** On a non-empty list the only exception is [OverflowError]. *)
Lemma aggregate_costs_raises (w : world) (p : loc) (es : list CostEntry.t)
    (rid : string) (e : exn) :
  heap w !! p = Some es -> es <> [] ->
  fst (aggregate_costs p rid w) = Raise e -> e = OverflowError.
Proof.
  intros Hp Hne. unfold aggregate_costs, bind.
  rewrite (read_list_some _ _ _ Hp).
  destruct es as [| first rest]; [congruence |].
  unfold lift, ret. set (es := first :: rest).
  pose proof (len_pos first rest) as Hlen. fold es in Hlen.
  destruct (int_truediv _ (len es)) as [avg |] eqn:Ed.
  - destruct (float_div_int _ (len es)) as [cpq |] eqn:Ef; [discriminate |].
    cbn [fst]. intros [= <-].
    unfold float_div_int, rbind in Ef.
    destruct (float_of_int (len es)) as [y |] eqn:Ey.
    + pose proof (float_of_int_pos _ _ Hlen Ey) as Hy.
      unfold float_truediv in Ef. rewrite Hy in Ef. discriminate.
    + unfold float_of_int in Ey.
      destruct (is_infinite _); congruence.
  - cbn [fst]. intros [= <-]. unfold int_truediv in Ed.
    destruct (Z.eqb_spec (len es) 0); [lia |].
    destruct (is_infinite _); congruence.
Qed.

(** A non-empty list is aggregated when the division for the average
    latency has a result. *)
Lemma aggregate_costs_returns_when (w : world) (p : loc) (es : list CostEntry.t)
    (rid : string) (avg : float) :
  heap w !! p = Some es -> es <> [] -> len es < 2 ^ 63 ->
  int_truediv (py_sum (map CostEntry.latency_ms es)) (len es) = Ok avg ->
  exists r, aggregate_costs p rid w = (Ok r, w).
Proof.
  intros Hp Hne Hlen Havg.
  unfold aggregate_costs, bind. rewrite (read_list_some _ _ _ Hp).
  destruct es as [| first rest]; [congruence |].
  unfold lift, ret. set (es := first :: rest) in *.
  pose proof (len_pos first rest) as Hpos. fold es in Hpos.
  rewrite Havg.
  assert (H63 : 2 ^ 63 < 2 ^ 1023) by (apply Z.pow_lt_mono_r; lia).
  destruct (float_of_int_ok (len es)) as (y & Ey & Hy & _); [lia |].
  unfold float_div_int, rbind, float_truediv. rewrite Ey, Hy.
  eexists. reflexivity.
Qed.

(** With latencies in range, a non-empty list is aggregated. *)
Lemma aggregate_costs_returns (w : world) (p : loc) (es : list CostEntry.t)
    (rid : string) :
  heap w !! p = Some es -> es <> [] -> latency_in_range es ->
  exists r, aggregate_costs p rid w = (Ok r, w).
Proof.
  intros Hp Hne [Hlat Hlen].
  assert (Hpos : 0 < len es).
  { destruct es as [| first rest]; [congruence | apply len_pos]. }
  destruct (int_truediv_ok (py_sum (map CostEntry.latency_ms es)) (len es))
    as (avg & Havg & _); [lia | rewrite py_sum_Zsum; exact Hlat |].
  exact (aggregate_costs_returns_when w p es rid avg Hp Hne Hlen Havg).
Qed.

Lemma stdpp_last_cons {A : Type} (x : A) (l : list A) :
  last (x :: l) = Some (List.last (x :: l) x).
Proof.
  revert x. induction l as [| y l IH]; intros x; [reflexivity |].
  change (last (x :: y :: l)) with (last (y :: l)). rewrite IH.
  f_equal. cbn [List.last]. destruct l as [| z l]; [reflexivity |].
  clear IH. revert z. induction l as [| u l IHl]; intros z; [reflexivity |].
  cbn [List.last] in *. apply IHl.
Qed.

Lemma List_last_map {A B : Type} (f : A -> B) (l : list A) (d : A) :
  List.last (map f l) (f d) = f (List.last l d).
Proof.
  induction l as [| x l IH]; [reflexivity |].
  cbn [map List.last]. destruct l as [| y l]; [reflexivity |]. exact IH.
Qed.

(** The result on a non-empty list, as one expression. *)
Lemma aggregate_costs_cons (w : world) (p : loc) (first : CostEntry.t)
    (rest : list CostEntry.t) (rid : string) :
  heap w !! p = Some (first :: rest) ->
  let es := first :: rest in
  fst (aggregate_costs p rid w) =
  rbind (int_truediv (py_sum (map CostEntry.latency_ms es)) (len es)) (fun avg =>
  rbind (float_div_int (py_sum_float (map CostEntry.total_cost es)) (len es)) (fun cpq =>
  Ok (RunCosts.mk rid p
        (py_sum (map CostEntry.input_tokens es))
        (py_sum (map CostEntry.output_tokens es))
        (py_sum (map CostEntry.input_tokens es)
         + py_sum (map CostEntry.output_tokens es))
        (py_sum_float (map CostEntry.total_cost es))
        (py_sum (map CostEntry.latency_ms es))
        avg cpq
        (CostEntry.model first) (CostEntry.timestamp first)
        (CostEntry.timestamp (List.last es first))))).
Proof.
  intros Hp es. unfold aggregate_costs, bind. rewrite (read_list_some _ _ _ Hp).
  unfold lift, ret, rbind. fold es.
  destruct (int_truediv _ _); [| reflexivity].
  destruct (float_div_int _ _); reflexivity.
Qed.

End Aggregation.

(** * The claims about aggregate_costs *)

Section Aggregation_claims.

Variables (w : world) (p : loc) (es : list CostEntry.t) (rid : string).
Hypothesis Hp : heap w !! p = Some es.

(** C1 (as amended).  For every non-empty list whose latencies are in
    range, [aggregate_costs] returns a run whose token, cost and latency
    totals are the sums of the entries' fields (the float total being the
    running total from left to right), whose [avg_latency_ms] is the total
    latency divided by the entry count and whose [cost_per_question] is
    the total cost divided by the entry count. *)
Theorem aggregate_costs_totals :
  es <> [] -> latency_in_range es -> returns_totals w p es rid.
Proof using Hp.
  intros Hne Hrange.
  destruct (aggregate_costs_returns w p es rid Hp Hne Hrange) as [r Hr].
  exists r. split; [exact Hr |].
  destruct (aggregate_costs_inv _ _ _ _ _ _ Hp Hr)
    as (_ & first & rest & avg & cpq & Hes & Havg & Hcpq & ->).
  unfold aggregates.
  cbn [RunCosts.total_input_tokens RunCosts.total_output_tokens
       RunCosts.total_cost RunCosts.total_latency_ms
       RunCosts.avg_latency_ms RunCosts.cost_per_question].
  rewrite <- !py_sum_Zsum, <- (length_map CostEntry.total_cost es),
    <- py_sum_float_running.
  auto 10.
Qed.

(** C2 (as amended).  On an empty list [aggregate_costs] raises the
    [ValueError] that is the module's empty-input failure, and returns no
    run; on a non-empty list it returns a run exactly when the total
    latency divided by the entry count fits in a float, which it does
    whenever the latencies are in range, and the only exception it can
    raise is the [OverflowError] of a division whose result is too large
    for a float. *)
Theorem aggregate_costs_failure :
  (es = [] ->
   aggregate_costs p rid w = (Raise (ValueError "No cost entries to aggregate"), w)) /\
  (es <> [] -> len es < 2 ^ 63 ->
   ((exists r, aggregate_costs p rid w = (Ok r, w)) <->
    (exists avg, int_truediv (Zsum (map CostEntry.latency_ms es)) (len es) = Ok avg))) /\
  (es <> [] -> latency_in_range es -> exists r, aggregate_costs p rid w = (Ok r, w)) /\
  (es <> [] -> forall e, fst (aggregate_costs p rid w) = Raise e -> e = OverflowError).
Proof using Hp.
  split; [| split; [| split]].
  - intros ->. unfold aggregate_costs, bind.
    rewrite (read_list_some _ _ _ Hp). reflexivity.
  - intros Hne Hlen. rewrite <- py_sum_Zsum. split.
    + intros [r Hr].
      destruct (aggregate_costs_inv _ _ _ _ _ _ Hp Hr)
        as (_ & first & rest & avg & cpq & _ & Havg & _).
      exists avg. exact Havg.
    + intros [avg Havg].
      exact (aggregate_costs_returns_when w p es rid avg Hp Hne Hlen Havg).
  - intros Hne Hrange. exact (aggregate_costs_returns w p es rid Hp Hne Hrange).
  - intros Hne e He. exact (aggregate_costs_raises w p es rid e Hp Hne He).
Qed.

(** C5.  The run returned for a non-empty list has [started_at] equal to
    the timestamp of the first element, [completed_at] equal to the
    timestamp of the last element and [model] equal to the model of the
    first element, in the order given: nothing is sorted and the models
    are not compared.  (A run is returned whenever the latencies are in
    range.) *)
Theorem aggregate_costs_first_last (first lst : CostEntry.t) :
  head es = Some first -> last es = Some lst ->
  (forall r w', aggregate_costs p rid w = (Ok r, w') ->
     RunCosts.started_at r = CostEntry.timestamp first /\
     RunCosts.completed_at r = CostEntry.timestamp lst /\
     RunCosts.model r = CostEntry.model first) /\
  (latency_in_range es -> exists r, aggregate_costs p rid w = (Ok r, w)).
Proof using Hp.
  intros Hhd Hlast. split.
  - intros r w' Hr.
    destruct (aggregate_costs_inv _ _ _ _ _ _ Hp Hr)
      as (_ & first' & rest & avg & cpq & Hes & _ & _ & ->).
    subst es. cbn [head] in Hhd. injection Hhd as ->.
    rewrite stdpp_last_cons in Hlast. injection Hlast as <-.
    cbn [RunCosts.started_at RunCosts.completed_at RunCosts.model]. auto.
  - intros Hrange. apply (aggregate_costs_returns w p es rid Hp); [| exact Hrange].
    intros Hnil. rewrite Hnil in Hhd. discriminate.
Qed.

(** C9.  [aggregate_costs] changes nothing: the store, and with it the
    list it was given and every entry in it, is the same afterwards,
    whether a run is returned or an exception raised; the [entries] field
    of the returned run is the list object that was passed, which still
    holds the given sequence.  (A run is returned for every non-empty list
    whose latencies are in range.) *)
Theorem aggregate_costs_keeps_entries :
  snd (aggregate_costs p rid w) = w /\
  (forall r, fst (aggregate_costs p rid w) = Ok r ->
     RunCosts.entries r = p /\
     heap (snd (aggregate_costs p rid w)) !! RunCosts.entries r = Some es) /\
  (es <> [] -> latency_in_range es ->
   exists r, fst (aggregate_costs p rid w) = Ok r).
Proof using Hp.
  pose proof (aggregate_costs_frame w p rid) as Hw.
  split; [exact Hw |]. split.
  - intros r Hr. rewrite Hw.
    destruct (aggregate_costs p rid w) as [res w'] eqn:Hrun.
    cbn [fst] in Hr. subst res.
    destruct (aggregate_costs_inv _ _ _ _ _ _ Hp Hrun)
      as (_ & first & rest & avg & cpq & _ & _ & _ & ->).
    cbn [RunCosts.entries]. auto.
  - intros Hne Hrange.
    destruct (aggregate_costs_returns w p es rid Hp Hne Hrange) as [r Hr].
    exists r. rewrite Hr. reflexivity.
Qed.

(** C10.  Every run produced by [aggregate_costs] has [total_tokens]
    equal to [total_input_tokens + total_output_tokens]; the entries' own
    [total_tokens] fields are not read: with any other values in those
    fields the same run is produced. *)
Theorem aggregate_costs_total_tokens (r : RunCosts.t) (w' : world) :
  aggregate_costs p rid w = (Ok r, w') ->
  RunCosts.total_tokens r
  = RunCosts.total_input_tokens r + RunCosts.total_output_tokens r /\
  forall (f : CostEntry.t -> Z) (v : world),
    heap v !! p = Some (map (fun e => with_total_tokens (f e) e) es) ->
    fst (aggregate_costs p rid v) = Ok r.
Proof using Hp.
  intros Hr.
  destruct (aggregate_costs_inv _ _ _ _ _ _ Hp Hr)
    as (_ & first & rest & avg & cpq & Hes & Havg & Hcpq & ->).
  split; [reflexivity |].
  intros f v Hv. subst es. cbn [map] in Hv.
  rewrite (aggregate_costs_cons v p _ _ rid Hv). cbv zeta.
  set (g := fun e => with_total_tokens (f e) e).
  change (with_total_tokens (f first) first :: map g rest) with (map g (first :: rest)).
  change (with_total_tokens (f first) first) with (g first).
  rewrite !map_map. cbn [g with_total_tokens CostEntry.latency_ms
    CostEntry.total_cost CostEntry.input_tokens CostEntry.output_tokens].
  change (fun x : CostEntry.t => CostEntry.latency_ms x) with CostEntry.latency_ms.
  change (fun x : CostEntry.t => CostEntry.total_cost x) with CostEntry.total_cost.
  change (fun x : CostEntry.t => CostEntry.input_tokens x) with CostEntry.input_tokens.
  change (fun x : CostEntry.t => CostEntry.output_tokens x) with CostEntry.output_tokens.
  assert (Hlen : len (map g (first :: rest)) = len (first :: rest))
    by (unfold len; rewrite length_map; reflexivity).
  rewrite Hlen, Havg, Hcpq. cbn [rbind].
  rewrite List_last_map. reflexivity.
Qed.

End Aggregation_claims.

(** * The claims about calculate_cost *)

Section Pricing_claims.

Variables (now model : string) (input_tokens output_tokens latency_ms : Z).

Lemma pricing_bounded :
  let pr := default zero_pricing (PRICING !! model) in
  (bounded_by 7 (input pr) /\ forall s m e, input pr = S754_finite s m e -> e <= 0) /\
  (bounded_by 7 (output pr) /\ forall s m e, output pr = S754_finite s m e -> e <= 0).
Proof.
  destruct (PRICING !! model) as [pr |] eqn:E; cbn [default zero_pricing input output].
  - destruct (PRICING_ok model pr E) as [Hi Ho].
    split; apply price_ok_bounded; assumption.
  - split; (split; [exact I | discriminate]).
Qed.

(** C3 (as amended).  For any model, any latency and any token counts
    below [2 ^ 1000] in magnitude, [calculate_cost] returns an entry with
    [total_tokens == input_tokens + output_tokens] exactly and
    [total_cost == input_cost + output_cost] within [1e-9]: the total is
    that very float sum, and it is finite. *)
Theorem calculate_cost_entry_invariant :
  Z.abs input_tokens < 2 ^ 1000 -> Z.abs output_tokens < 2 ^ 1000 ->
  exists e,
    calculate_cost now model input_tokens output_tokens latency_ms = Ok e /\
    entry_invariant e /\
    CostEntry.total_cost e = add (CostEntry.input_cost e) (CostEntry.output_cost e) /\
    is_finite (CostEntry.total_cost e) = true.
Proof.
  intros Hi Ho. unfold calculate_cost.
  destruct pricing_bounded as [[Hpi Hei] [Hpo Heo]]. cbv zeta in *.
  set (pr := default zero_pricing (PRICING !! model)) in *.
  pose proof (div_exact_bounded input_tokens 1000000 ltac:(lia) Hi) as Bi.
  pose proof (div_exact_bounded output_tokens 1000000 ltac:(lia) Ho) as Bo.
  destruct (int_truediv_ok input_tokens 1000000 ltac:(lia) Hi) as (qi & Ei & _).
  destruct (int_truediv_ok output_tokens 1000000 ltac:(lia) Ho) as (qo & Eo & _).
  assert (Hqi : qi = div (exact input_tokens) (exact 1000000)).
  { unfold int_truediv in Ei. cbn [Z.eqb] in Ei.
    destruct (is_infinite _); congruence. }
  assert (Hqo : qo = div (exact output_tokens) (exact 1000000)).
  { unfold int_truediv in Eo. cbn [Z.eqb] in Eo.
    destruct (is_infinite _); congruence. }
  rewrite Ei, Eo. cbn [rbind]. subst qi qo.
  pose proof (mul_bounded 1001 7 _ _ Bi Hpi Hei ltac:(lia)) as Mi.
  pose proof (mul_bounded 1001 7 _ _ Bo Hpo Heo ltac:(lia)) as Mo.
  pose proof (add_bounded (1001 + 7 + 1) _ _ Mi Mo ltac:(lia)) as Hsum.
  apply bounded_by_finite in Hsum.
  eexists. split; [reflexivity |].
  unfold entry_invariant.
  cbn [CostEntry.total_tokens CostEntry.input_tokens CostEntry.output_tokens
       CostEntry.total_cost CostEntry.input_cost CostEntry.output_cost].
  repeat split; trivial. apply within_tol_refl. exact Hsum.
Qed.

(** C6 (as amended).  For every model that is not in the pricing table
    and any token counts below [2 ^ 1000] in magnitude, [calculate_cost]
    returns, without raising, an entry whose [input_cost], [output_cost]
    and [total_cost] are zero. *)
Theorem calculate_cost_unknown_model :
  PRICING !! model = None ->
  Z.abs input_tokens < 2 ^ 1000 -> Z.abs output_tokens < 2 ^ 1000 ->
  costs_nothing now model input_tokens output_tokens latency_ms.
Proof.
  intros Hm Hi Ho. unfold costs_nothing, calculate_cost. rewrite Hm.
  cbn [default zero_pricing input output].
  destruct (int_truediv_ok input_tokens 1000000 ltac:(lia) Hi) as (qi & -> & Fi).
  destruct (int_truediv_ok output_tokens 1000000 ltac:(lia) Ho) as (qo & -> & Fo).
  cbn [rbind]. eexists. split; [reflexivity |].
  cbn [CostEntry.total_cost CostEntry.input_cost CostEntry.output_cost].
  destruct qi as [si | | | si mi ei], qo as [so | | | so mo eo];
    try discriminate; destruct si, so; repeat split; reflexivity.
Qed.

End Pricing_claims.

(** C8 (as amended).  [calculate_cost("gpt-4o-mini", 1_000_000, 500_000,
    latency_ms=250)] returns an entry whose [input_cost] is the float
    [0.15], whose [output_cost] is the float [0.30] and whose [total_cost]
    is their float sum, the float [0.44999999999999996]: equal to [0.45]
    within [1e-9]. *)
Theorem calculate_cost_scenario (now : string) :
  exists e,
    calculate_cost now "gpt-4o-mini" 1000000 500000 250 = Ok e /\
    CostEntry.input_cost e = lit 15 100 /\
    CostEntry.output_cost e = lit 30 100 /\
    CostEntry.total_cost e = add (lit 15 100) (lit 30 100) /\
    CostEntry.total_cost e = lit 44999999999999996 100000000000000000 /\
    within_tol (CostEntry.total_cost e) (lit 45 100) = true.
Proof.
  exists (CostEntry.mk "gpt-4o-mini" 1000000 500000 1500000
            (lit 15 100) (lit 30 100) (add (lit 15 100) (lit 30 100)) 250 now).
  repeat split; vm_compute; reflexivity.
Qed.

(** * Rounding to decimals *)

Section Round_facts.

(** [round_half_even] yields a nearest integer, the even one on a tie. *)
Lemma round_half_even_nearest (num den : Z) :
  0 <= num -> 0 < den ->
  let k := round_half_even num den in
  0 <= k /\
  2 * Z.abs (num - k * den) <= den /\
  (2 * Z.abs (num - k * den) = den -> Z.even k = true).
Proof.
  intros Hn Hd. unfold round_half_even.
  pose proof (Z.div_mod num den ltac:(lia)) as Hdm.
  pose proof (Z.mod_pos_bound num den Hd) as Hr.
  pose proof (Z.div_pos num den Hn Hd) as Hq.
  set (q := num / den) in *. set (r := num mod den) in *.
  destruct (Z.compare_spec (2 * r) den) as [He | Hl | Hg]; cbv zeta.
  - destruct (Z.even q) eqn:Eq.
    + repeat split; try nia. intros _. exact Eq.
    + repeat split; try nia. intros _.
      rewrite Z.even_add, Eq. reflexivity.
  - repeat split; try nia.
  - repeat split; try nia.
Qed.

(** [py_round] of a finite number: the double nearest to [k / 10 ^ nd]
    for an integer [k] nearest to the number scaled by [10 ^ nd]. *)
Lemma py_round_finite (s : bool) (m : positive) (e nd : Z) :
  0 <= nd ->
  exists k,
    0 <= k /\
    py_round (S754_finite s m e) nd
    = (if k =? 0 then S754_zero s
       else div (exact (cond_Zopp s k)) (exact (10 ^ nd))) /\
    (0 <= e -> k = Z.pos m * 2 ^ e * 10 ^ nd) /\
    (e < 0 -> 2 * Z.abs (Z.pos m * 10 ^ nd - k * 2 ^ (- e)) <= 2 ^ (- e)).
Proof.
  intros Hnd. cbn [py_round].
  assert (Hp : 0 < 10 ^ nd) by (apply Z.pow_pos_nonneg; lia).
  destruct (Z.leb_spec 0 e) as [He | He].
  - assert (H2 : 0 < 2 ^ e) by (apply Z.pow_pos_nonneg; lia).
    destruct (round_half_even_nearest (Z.pos m * 2 ^ e * 10 ^ nd) 1
                ltac:(nia) ltac:(lia)) as (Hk0 & Hk & _).
    cbv zeta in *. set (k := round_half_even _ 1) in *. clearbody k.
    exists k. split; [exact Hk0 |]. split; [| split; [intros _; lia | lia]].
    destruct k as [| k' | k']; [reflexivity | | lia].
    cbn [Z.eqb]. destruct s; reflexivity.
  - assert (H2 : 0 < 2 ^ (- e)) by (apply Z.pow_pos_nonneg; lia).
    destruct (round_half_even_nearest (Z.pos m * 10 ^ nd) (2 ^ (- e))
                ltac:(nia) H2) as (Hk0 & Hk & _).
    cbv zeta in *. set (k := round_half_even _ (2 ^ (- e))) in *. clearbody k.
    exists k. split; [exact Hk0 |]. split; [| split; [lia | intros _; exact Hk]].
    destruct k as [| k' | k']; [reflexivity | | lia].
    cbn [Z.eqb]. destruct s; reflexivity.
Qed.

End Round_facts.

(** * The claims about the durable form *)

Section Persistence.

Lemma entry_of_json_asdict (e : CostEntry.t) : entry_of_json (asdict e) = Some e.
Proof. destruct e. reflexivity. Qed.

Lemma mapM_entry_of_json (es : list CostEntry.t) :
  mapM entry_of_json (map asdict es) = Some es.
Proof.
  induction es as [| e es IH]; [reflexivity |].
  cbn [map mapM]. rewrite entry_of_json_asdict. cbn. rewrite IH. reflexivity.
Qed.

(** An entry dictionary loses nothing of the entry. *)
Lemma asdict_inj (e e' : CostEntry.t) : asdict e = asdict e' -> e = e'.
Proof.
  intros H. apply (f_equal entry_of_json) in H.
  rewrite !entry_of_json_asdict in H. congruence.
Qed.

Lemma run_of_json_data (costs : RunCosts.t) (es : list CostEntry.t) :
  run_of_json (save_costs_data costs es)
  = Some (es, fun entries =>
      RunCosts.mk (RunCosts.run_id costs) entries
        (RunCosts.total_input_tokens costs) (RunCosts.total_output_tokens costs)
        (RunCosts.total_tokens costs)
        (py_round (RunCosts.total_cost costs) 4)
        (RunCosts.total_latency_ms costs)
        (py_round (RunCosts.avg_latency_ms costs) 2)
        (py_round (RunCosts.cost_per_question costs) 6)
        (RunCosts.model costs) (RunCosts.started_at costs)
        (RunCosts.completed_at costs)).
Proof.
  unfold run_of_json, save_costs_data. cbn -[mapM py_round].
  rewrite mapM_entry_of_json. reflexivity.
Qed.

Lemma save_costs_writes (w : world) (costs : RunCosts.t) (path : string)
    (es : list CostEntry.t) :
  heap w !! RunCosts.entries costs = Some es ->
  path ∉ unwritable w ->
  save_costs costs path w
  = (Ok tt, mkWorld (heap w) (<[path := save_costs_data costs es]> (files w))
              (unwritable w)).
Proof.
  intros Hes Hpath. unfold save_costs, bind.
  rewrite (read_list_some _ _ _ Hes). unfold write_json.
  destruct (decide (path ∈ unwritable w)); [contradiction | reflexivity].
Qed.


(** Saving any run and loading the file again gives a run whose entries
    list holds the saved entries and whose summary fields are the saved
    ones, the floats rounded. *)
Lemma save_then_load (w : world) (costs : RunCosts.t) (path : string)
    (es : list CostEntry.t) :
  heap w !! RunCosts.entries costs = Some es ->
  path ∉ unwritable w ->
  exists w1 reloaded w2,
    save_costs costs path w = (Ok tt, w1) /\
    load_costs path w1 = (Ok reloaded, w2) /\
    heap w2 !! RunCosts.entries reloaded = Some es /\
    reloaded
    = RunCosts.mk (RunCosts.run_id costs) (RunCosts.entries reloaded)
        (RunCosts.total_input_tokens costs) (RunCosts.total_output_tokens costs)
        (RunCosts.total_tokens costs)
        (py_round (RunCosts.total_cost costs) 4)
        (RunCosts.total_latency_ms costs)
        (py_round (RunCosts.avg_latency_ms costs) 2)
        (py_round (RunCosts.cost_per_question costs) 6)
        (RunCosts.model costs) (RunCosts.started_at costs)
        (RunCosts.completed_at costs).
Proof.
  intros Hes Hpath. eexists. eexists. eexists.
  split; [apply save_costs_writes; eassumption |].
  unfold load_costs, bind, read_json. cbn [files].
  rewrite lookup_insert_eq, run_of_json_data.
  unfold new_list, ret. cbn [heap files unwritable].
  split; [reflexivity |]. cbn [heap RunCosts.entries].
  split; [apply lookup_insert_eq | reflexivity].
Qed.


End Persistence.

(** * The claims on sample runs *)

Section Samples.

Lemma sample_heap : heap sample_world !! 1%positive = Some sample_entries.
Proof. vm_compute. reflexivity. Defined.

Lemma sample_range : latency_in_range sample_entries.
Proof. split; vm_compute; reflexivity. Defined.

Lemma sample_nonempty : sample_entries <> [].
Proof. discriminate. Defined.

Lemma sample_aggregate :
  aggregate_costs 1%positive "run-1" sample_world = (Ok sample_run, sample_world).
Proof. vm_compute. reflexivity. Defined.

Lemma aggregate_costs_totals_sample :
  returns_totals sample_world 1%positive sample_entries "run-1".
Proof.
  exact (aggregate_costs_totals sample_world 1%positive sample_entries "run-1"
           sample_heap sample_nonempty sample_range).
Defined.

(** C1 as stated fails: for a list of one entry whose latency is
    [10 ** 400] ms, [aggregate_costs] raises [OverflowError] at the
    division for the average latency and returns no run. *)
Lemma aggregate_costs_totals_overflow :
  heap slow_world !! 1%positive = Some slow_entries /\
  slow_entries <> [] /\
  fst (aggregate_costs 1%positive "run-1" slow_world) = Raise OverflowError /\
  ~ returns_totals slow_world 1%positive slow_entries "run-1".
Proof.
  split; [vm_compute; reflexivity |]. split; [discriminate |].
  split; [vm_compute; reflexivity |].
  intros (r & Hr & _). apply (f_equal fst) in Hr. vm_compute in Hr. discriminate.
Qed.

Lemma aggregate_costs_failure_sample :
  exists r, aggregate_costs 1%positive "run-1" sample_world = (Ok r, sample_world).
Proof.
  destruct (aggregate_costs_failure sample_world 1%positive sample_entries "run-1"
              sample_heap) as (_ & _ & Hreturns & _).
  exact (Hreturns sample_nonempty sample_range).
Defined.

(** C2 as stated fails: two entries with a latency of [2 ** 1030] ms each
    make a non-empty list on which [aggregate_costs] raises. *)
Lemma aggregate_costs_failure_stalled :
  heap stalled_world !! 1%positive = Some stalled_entries /\
  fst (aggregate_costs 1%positive "run-1" stalled_world) = Raise OverflowError /\
  ~ fails_only_when_empty stalled_world 1%positive stalled_entries "run-1".
Proof.
  split; [vm_compute; reflexivity |]. split; [vm_compute; reflexivity |].
  intros [_ H]. destruct (H ltac:(discriminate)) as [r Hr].
  vm_compute in Hr. discriminate.
Qed.

Lemma aggregate_costs_first_last_sample :
  exists r,
    aggregate_costs 1%positive "run-1" sample_world = (Ok r, sample_world) /\
    RunCosts.started_at r = "2024-12-03T10:00:05" /\
    RunCosts.completed_at r = "2024-12-01T09:00:00" /\
    RunCosts.model r = "gpt-4o".
Proof.
  destruct (aggregate_costs_first_last sample_world 1%positive sample_entries
              "run-1" sample_heap late_entry early_entry eq_refl eq_refl)
    as [Hfields Hreturns].
  destruct (Hreturns sample_range) as [r Hr].
  exists r. split; [exact Hr |]. exact (Hfields r sample_world Hr).
Defined.

Lemma aggregate_costs_keeps_entries_sample :
  snd (aggregate_costs 1%positive "run-1" sample_world) = sample_world /\
  exists r,
    fst (aggregate_costs 1%positive "run-1" sample_world) = Ok r /\
    RunCosts.entries r = 1%positive /\
    heap (snd (aggregate_costs 1%positive "run-1" sample_world))
      !! RunCosts.entries r = Some sample_entries.
Proof.
  destruct (aggregate_costs_keeps_entries sample_world 1%positive sample_entries
              "run-1" sample_heap) as (Hframe & Hentries & Hreturns).
  split; [exact Hframe |].
  destruct (Hreturns sample_nonempty sample_range) as [r Hr].
  exists r. split; [exact Hr |]. exact (Hentries r Hr).
Defined.

Lemma aggregate_costs_total_tokens_sample :
  RunCosts.total_tokens sample_run = 2100 + 400 /\
  forall (f : CostEntry.t -> Z) (v : world),
    heap v !! 1%positive
    = Some (map (fun e => with_total_tokens (f e) e) sample_entries) ->
    fst (aggregate_costs 1%positive "run-1" v) = Ok sample_run.
Proof.
  exact (aggregate_costs_total_tokens sample_world 1%positive sample_entries
           "run-1" sample_heap sample_run sample_world sample_aggregate).
Defined.

Lemma calculate_cost_entry_invariant_sample :
  exists e,
    calculate_cost "2024-12-01T09:00:00" "gpt-4o" 1200 300 800 = Ok e /\
    entry_invariant e /\
    CostEntry.total_cost e = add (CostEntry.input_cost e) (CostEntry.output_cost e) /\
    is_finite (CostEntry.total_cost e) = true.
Proof.
  apply (calculate_cost_entry_invariant "2024-12-01T09:00:00" "gpt-4o" 1200 300 800);
    vm_compute; reflexivity.
Defined.

(** C3 as stated fails: with [2 * 10 ** 313] input tokens and
    [- 10 ** 313] output tokens against a priced model, the input cost is
    [inf], the output cost [-inf] and the total cost NaN, which is within
    no tolerance of anything. *)
Lemma calculate_cost_nan_total :
  exists e,
    calculate_cost "2024-12-01T09:00:00" "claude-3-opus-20240229"
      (2 * 10 ^ 313) (- 10 ^ 313) 0 = Ok e /\
    CostEntry.input_cost e = S754_infinity false /\
    CostEntry.output_cost e = S754_infinity true /\
    CostEntry.total_cost e = S754_nan /\
    ~ entry_invariant e.
Proof.
  eexists. split; [vm_compute; reflexivity |].
  cbn [CostEntry.input_cost CostEntry.output_cost CostEntry.total_cost].
  repeat split. intros [_ H]. vm_compute in H. discriminate.
Qed.

Lemma calculate_cost_unknown_model_xyz :
  PRICING !! "unknown-model-xyz" = None /\
  costs_nothing "2024-12-01T09:00:00" "unknown-model-xyz" 1000 1000 0.
Proof.
  split; [vm_compute; reflexivity |].
  apply (calculate_cost_unknown_model "2024-12-01T09:00:00" "unknown-model-xyz"
           1000 1000 0); vm_compute; reflexivity.
Defined.

(** C6 as stated fails: for [10 ** 400] input tokens the division by
    1,000,000 raises [OverflowError], whatever the model. *)
Lemma calculate_cost_unknown_model_overflow :
  PRICING !! "unknown-model-xyz" = None /\
  calculate_cost "2024-12-01T09:00:00" "unknown-model-xyz" (10 ^ 400) 1000 0
  = Raise OverflowError /\
  ~ costs_nothing "2024-12-01T09:00:00" "unknown-model-xyz" (10 ^ 400) 1000 0.
Proof.
  split; [vm_compute; reflexivity |]. split; [vm_compute; reflexivity |].
  intros (e & He & _). vm_compute in He. discriminate.
Qed.

(** C8 as stated fails: the total cost of the scenario is the float sum
    [0.15 + 0.30], which is [0.44999999999999996], one unit in the last
    place below the float [0.45]. *)
Lemma calculate_cost_scenario_inexact :
  add (lit 15 100) (lit 30 100) = S754_finite false 8106479329266892 (-54) /\
  lit 45 100 = S754_finite false 8106479329266893 (-54) /\
  ~ scenario_costs "2024-12-01T09:00:00".
Proof.
  split; [vm_compute; reflexivity |]. split; [vm_compute; reflexivity |].
  intros (e & He & _ & _ & Ht). vm_compute in He. injection He as <-.
  vm_compute in Ht. discriminate.
Qed.




End Samples.

(** * Further properties of aggregate_costs *)

Section Aggregation_more.

Lemma Zsum_app (l l' : list Z) : Zsum (l ++ l')%list = Zsum l + Zsum l'.
Proof.
  unfold Zsum. induction l as [| x l IH]; cbn [app fold_right]; lia.
Qed.

Lemma Zsum_Permutation (l l' : list Z) : Permutation l l' -> Zsum l = Zsum l'.
Proof.
  unfold Zsum.
  induction 1 as [| x l l' _ IH | x y l | l l' l'' _ IH1 _ IH2];
    cbn [fold_right] in *; lia.
Qed.

Lemma py_sum_map_snoc {A : Type} (f : A -> Z) (l : list A) (x : A) :
  py_sum (map f (l ++ [x])%list) = py_sum (map f l) + f x.
Proof.
  rewrite map_app, !py_sum_Zsum, Zsum_app. unfold Zsum. cbn [map fold_right]. lia.
Qed.

Lemma py_sum_float_map_snoc {A : Type} (f : A -> float) (l : list A) (x : A) :
  py_sum_float (map f (l ++ [x])%list) = add (py_sum_float (map f l)) (f x).
Proof. rewrite map_app. cbn [map]. apply py_sum_float_snoc. Qed.

Lemma aggregate_costs_fields (w w' : world) (p : loc) (es : list CostEntry.t)
    (rid : string) (r : RunCosts.t) :
  heap w !! p = Some es ->
  aggregate_costs p rid w = (Ok r, w') ->
  RunCosts.total_input_tokens r = Zsum (map CostEntry.input_tokens es) /\
  RunCosts.total_output_tokens r = Zsum (map CostEntry.output_tokens es) /\
  RunCosts.total_tokens r
  = Zsum (map CostEntry.input_tokens es) + Zsum (map CostEntry.output_tokens es) /\
  RunCosts.total_latency_ms r = Zsum (map CostEntry.latency_ms es) /\
  RunCosts.total_cost r = py_sum_float (map CostEntry.total_cost es) /\
  int_truediv (Zsum (map CostEntry.latency_ms es)) (len es)
  = Ok (RunCosts.avg_latency_ms r) /\
  float_div_int (py_sum_float (map CostEntry.total_cost es)) (len es)
  = Ok (RunCosts.cost_per_question r).
Proof.
  intros Hp Hr.
  destruct (aggregate_costs_inv _ _ _ _ _ _ Hp Hr)
    as (_ & first & rest & avg & cpq & Hes & Havg & Hcpq & ->).
  rewrite <- !py_sum_Zsum. cbn. auto 10.
Qed.

(** Appending one entry to the list adds its token counts and latency to
    the totals and its cost to the running float total; the model and
    [started_at] stay those of the first entry and [completed_at] becomes
    the timestamp of the new entry. *)
Theorem aggregate_costs_append (w w' : world) (p p' : loc) (es : list CostEntry.t)
    (e : CostEntry.t) (rid : string) (r r' : RunCosts.t) :
  heap w !! p = Some es ->
  heap w' !! p' = Some (es ++ [e])%list ->
  aggregate_costs p rid w = (Ok r, w) ->
  aggregate_costs p' rid w' = (Ok r', w') ->
  RunCosts.total_input_tokens r'
  = RunCosts.total_input_tokens r + CostEntry.input_tokens e /\
  RunCosts.total_output_tokens r'
  = RunCosts.total_output_tokens r + CostEntry.output_tokens e /\
  RunCosts.total_tokens r'
  = RunCosts.total_tokens r + CostEntry.input_tokens e + CostEntry.output_tokens e /\
  RunCosts.total_latency_ms r'
  = RunCosts.total_latency_ms r + CostEntry.latency_ms e /\
  RunCosts.total_cost r' = add (RunCosts.total_cost r) (CostEntry.total_cost e) /\
  RunCosts.model r' = RunCosts.model r /\
  RunCosts.started_at r' = RunCosts.started_at r /\
  RunCosts.completed_at r' = CostEntry.timestamp e.
Proof.
  intros Hp Hp' Hr Hr'.
  destruct (aggregate_costs_inv _ _ _ _ _ _ Hp Hr)
    as (_ & first & rest & avg & cpq & Hes & _ & _ & ->).
  destruct (aggregate_costs_inv _ _ _ _ _ _ Hp' Hr')
    as (_ & first' & rest' & avg' & cpq' & Hes' & _ & _ & ->).
  subst es. cbn [app] in Hes'. injection Hes' as <- <-.
  cbn [RunCosts.total_input_tokens RunCosts.total_output_tokens
       RunCosts.total_tokens RunCosts.total_latency_ms RunCosts.total_cost
       RunCosts.model RunCosts.started_at RunCosts.completed_at].
  change (first :: (rest ++ [e])%list) with ((first :: rest) ++ [e])%list.
  rewrite !py_sum_map_snoc, py_sum_float_map_snoc.
  repeat split; try lia. f_equal. apply last_last.
Qed.

(** The order of the entries does not matter to the token totals, the
    total latency and the average latency: a list with the same entries
    in another order is aggregated as well, with those fields equal. *)
Theorem aggregate_costs_reordered (w w' : world) (p p' : loc)
    (es es' : list CostEntry.t) (rid : string) (r : RunCosts.t) :
  heap w !! p = Some es ->
  heap w' !! p' = Some es' ->
  Permutation es es' ->
  aggregate_costs p rid w = (Ok r, w) ->
  exists r',
    aggregate_costs p' rid w' = (Ok r', w') /\
    RunCosts.total_input_tokens r' = RunCosts.total_input_tokens r /\
    RunCosts.total_output_tokens r' = RunCosts.total_output_tokens r /\
    RunCosts.total_tokens r' = RunCosts.total_tokens r /\
    RunCosts.total_latency_ms r' = RunCosts.total_latency_ms r /\
    RunCosts.avg_latency_ms r' = RunCosts.avg_latency_ms r.
Proof.
  intros Hp Hp' Hperm Hr.
  destruct (aggregate_costs_fields _ _ _ _ _ _ Hp Hr)
    as (Hi & Ho & Ht & Hl & _ & Havg & Hcpq).
  assert (Hlen : len es' = len es).
  { unfold len. rewrite (Permutation_length Hperm). reflexivity. }
  assert (Hne : es' <> []).
  { intros ->. apply Permutation_nil_r in Hperm. subst es.
    unfold aggregate_costs, bind in Hr. rewrite (read_list_some _ _ _ Hp) in Hr.
    discriminate. }
  assert (HZ : forall f : CostEntry.t -> Z, Zsum (map f es') = Zsum (map f es)).
  { intros f. symmetry. apply Zsum_Permutation, Permutation_map, Hperm. }
  unfold float_div_int, rbind in Hcpq.
  destruct (float_of_int (len es)) as [y |] eqn:Ey; [| discriminate].
  unfold float_truediv in Hcpq.
  destruct (is_zero y) eqn:Hy; [discriminate |].
  destruct es' as [| first' rest']; [congruence |].
  pose proof (aggregate_costs_cons w' p' first' rest' rid Hp') as Hrun.
  cbv zeta in Hrun.
  rewrite !py_sum_Zsum, !HZ, Hlen, Havg in Hrun. cbn [rbind] in Hrun.
  unfold float_div_int at 1 in Hrun. rewrite Ey in Hrun. cbn [rbind] in Hrun.
  unfold float_truediv in Hrun. rewrite Hy in Hrun.
  pose proof (aggregate_costs_frame w' p' rid) as Hframe.
  destruct (aggregate_costs p' rid w') as [res w''].
  cbn [fst snd] in *. subst res w''.
  eexists. split; [reflexivity |].
  cbn [RunCosts.total_input_tokens RunCosts.total_output_tokens
       RunCosts.total_tokens RunCosts.total_latency_ms RunCosts.avg_latency_ms].
  rewrite Hi, Ho, Ht, Hl. auto.
Qed.

(** For entries that [calculate_cost] made, the run's [total_tokens] is
    the sum of the entries' own [total_tokens]. *)
Theorem aggregate_costs_of_priced_entries (w w' : world) (p : loc)
    (es : list CostEntry.t) (rid : string) (r : RunCosts.t) :
  heap w !! p = Some es ->
  Forall (fun e => exists now model it ot lat,
            calculate_cost now model it ot lat = Ok e) es ->
  aggregate_costs p rid w = (Ok r, w') ->
  RunCosts.total_tokens r = Zsum (map CostEntry.total_tokens es).
Proof.
  intros Hp Hall Hr.
  destruct (aggregate_costs_fields _ _ _ _ _ _ Hp Hr) as (_ & _ & -> & _).
  clear Hp Hr. induction Hall as [| e es He _ IH]; [reflexivity |].
  cbn [map Zsum fold_right] in *. unfold Zsum in *.
  destruct He as (now & model & it & ot & lat & He).
  unfold calculate_cost, rbind in He.
  destruct (int_truediv it 1000000); [| discriminate].
  destruct (int_truediv ot 1000000); [| discriminate].
  injection He as <-. cbn [CostEntry.total_tokens CostEntry.input_tokens
                           CostEntry.output_tokens]. lia.
Qed.

End Aggregation_more.

(** * Further properties of save_costs *)

Section Persistence_more.



End Persistence_more.

(** * Further properties of calculate_cost *)

Section Pricing_more.

(** The sign given to [binary_round_aux] is the sign of its result. *)
Lemma binary_round_aux_sign (s : bool) (m e : Z) (l : location) :
  0 <= m ->
  match binary_round_aux prec emax s m e l with
  | S754_zero s' | S754_finite s' _ _ | S754_infinity s' => s' = s
  | S754_nan => False
  end.
Proof.
  intros Hm.
  destruct (binary_round_aux_cases s m e l Hm)
    as (m1 & e1 & m2 & m3 & e3 & H1 & Hr & H2 & ->).
  pose proof (shifted_nonneg _ _ _ _ Hm H1) as Hm1.
  pose proof (shifted_nonneg m2 e1 m3 e3 ltac:(lia) H2) as Hm3.
  destruct m3 as [| q | q]; [reflexivity | | lia].
  destruct (e3 <=? 971); reflexivity.
Qed.

Lemma signless_not_negative (x : float) : signless x -> not_negative x = true.
Proof. destruct x as [| | | [] m e]; cbn; intuition discriminate. Qed.

Lemma bounded_signless (K : Z) (x : float) :
  bounded_by K x ->
  match x with
  | S754_zero s' | S754_finite s' _ _ | S754_infinity s' => s' = false
  | S754_nan => False
  end ->
  signless x.
Proof. destruct x; cbn; intuition. Qed.

Lemma div_exact_signless (a b : Z) :
  0 <= a < 2 ^ 1000 -> 0 < b -> signless (div (exact a) (exact b)).
Proof.
  intros Ha Hb.
  pose proof (div_exact_bounded a b Hb ltac:(lia)) as Hbd.
  destruct a as [| pa | pa], b as [| pb | pb]; try lia; [exact I |].
  revert Hbd. unfold div, SFdiv, exact.
  destruct (SFdiv_core_binary_spec (Z.pos pa) 0 (Z.pos pb) 0)
    as (q & e' & l & -> & He & Hq); try lia.
  assert (Hq0 : 0 <= q).
  { subst q. apply Z.div_pos; [| lia].
    apply Z.mul_nonneg_nonneg; [lia |]. apply Z.pow_nonneg. lia. }
  intros Hbd. apply (bounded_signless 1001); [exact Hbd |].
  apply (binary_round_aux_sign (xorb false false) q e' l Hq0).
Qed.

Lemma mul_signless (x y : float) (K : Z) :
  signless x -> signless y -> bounded_by K (mul x y) -> signless (mul x y).
Proof.
  intros Hx Hy Hb.
  destruct x as [sx | | | sx mx ex], y as [sy | | | sy my ey];
    cbn in Hx, Hy; try contradiction; try exact I. subst sx sy.
  apply (bounded_signless K); [exact Hb |].
  apply (binary_round_aux_sign (xorb false false)). lia.
Qed.

Lemma add_signless (x y : float) (K : Z) :
  signless x -> signless y -> bounded_by K (add x y) -> signless (add x y).
Proof.
  intros Hx Hy Hb.
  destruct x as [sx | | | sx mx ex], y as [sy | | | sy my ey];
    cbn in Hx, Hy; try contradiction; try exact I.
  - unfold add, SFadd. destruct sx, sy; exact I.
  - exact Hy.
  - exact Hx.
  - subst sx sy. apply (bounded_signless K); [exact Hb |].
    revert Hb. unfold add, SFadd. cbn [cond_Zopp].
    destruct (shl_align mx ex (Z.min ex ey)) as [ax ex'].
    destruct (shl_align my ey (Z.min ex ey)) as [ay ey']. cbn [fst].
    change (Z.pos ax + Z.pos ay) with (Z.pos (ax + ay)).
    cbn [binary_normalize]. unfold binary_round.
    destruct (shl_align (ax + ay) _ _) as [mz ez]. intros _.
    apply (binary_round_aux_sign false). lia.
Qed.

Lemma price_ok_signless (x : float) : price_ok x = true -> signless x.
Proof.
  destruct x as [| | | [] m e]; cbn [price_ok signless];
    intros; try discriminate; reflexivity.
Qed.

(** For token counts that are not negative (and below [2 ^ 1000]), no
    cost of the entry is negative, whatever the model. *)
Theorem calculate_cost_not_negative (now model : string)
    (input_tokens output_tokens latency_ms : Z) :
  0 <= input_tokens < 2 ^ 1000 -> 0 <= output_tokens < 2 ^ 1000 ->
  exists e,
    calculate_cost now model input_tokens output_tokens latency_ms = Ok e /\
    not_negative (CostEntry.input_cost e) = true /\
    not_negative (CostEntry.output_cost e) = true /\
    not_negative (CostEntry.total_cost e) = true.
Proof.
  intros Hi Ho. unfold calculate_cost.
  destruct (pricing_bounded model) as [[Hpi Hei] [Hpo Heo]]. cbv zeta in *.
  assert (Spr : signless (input (default zero_pricing (PRICING !! model))) /\
                signless (output (default zero_pricing (PRICING !! model)))).
  { destruct (PRICING !! model) as [pr |] eqn:E;
      cbn [default zero_pricing input output]; [| split; exact I].
    destruct (PRICING_ok model pr E) as [Hin Hout].
    split; apply price_ok_signless; assumption. }
  destruct Spr as [Spi Spo].
  set (pr := default zero_pricing (PRICING !! model)) in *.
  pose proof (div_exact_bounded input_tokens 1000000 ltac:(lia) ltac:(lia)) as Bi.
  pose proof (div_exact_bounded output_tokens 1000000 ltac:(lia) ltac:(lia)) as Bo.
  pose proof (div_exact_signless input_tokens 1000000 Hi ltac:(lia)) as Si.
  pose proof (div_exact_signless output_tokens 1000000 Ho ltac:(lia)) as So.
  destruct (int_truediv_ok input_tokens 1000000 ltac:(lia) ltac:(lia)) as (qi & Ei & _).
  destruct (int_truediv_ok output_tokens 1000000 ltac:(lia) ltac:(lia)) as (qo & Eo & _).
  assert (Hqi : qi = div (exact input_tokens) (exact 1000000)).
  { unfold int_truediv in Ei. cbn [Z.eqb] in Ei.
    destruct (is_infinite _); congruence. }
  assert (Hqo : qo = div (exact output_tokens) (exact 1000000)).
  { unfold int_truediv in Eo. cbn [Z.eqb] in Eo.
    destruct (is_infinite _); congruence. }
  rewrite Ei, Eo. cbn [rbind]. subst qi qo.
  pose proof (mul_bounded 1001 7 _ _ Bi Hpi Hei ltac:(lia)) as Mi.
  pose proof (mul_bounded 1001 7 _ _ Bo Hpo Heo ltac:(lia)) as Mo.
  pose proof (add_bounded (1001 + 7 + 1) _ _ Mi Mo ltac:(lia)) as Hsum.
  pose proof (mul_signless _ _ _ Si Spi Mi) as SMi.
  pose proof (mul_signless _ _ _ So Spo Mo) as SMo.
  pose proof (add_signless _ _ _ SMi SMo Hsum) as SS.
  eexists. split; [reflexivity |].
  cbn [CostEntry.total_cost CostEntry.input_cost CostEntry.output_cost].
  repeat split; apply signless_not_negative; assumption.
Qed.

Lemma Zdigits2_div_pow2 (m n : Z) :
  0 < m -> 0 <= n -> n < Zdigits2 m -> Zdigits2 (m / 2 ^ n) = Zdigits2 m - n.
Proof.
  intros Hm Hn Hlt. rewrite (Zdigits2_log2 m) in * by lia.
  assert (Hpos : 0 < m / 2 ^ n).
  { apply Z.div_str_pos. split; [apply Z.pow_pos_nonneg; lia |].
    transitivity (2 ^ Z.log2 m); [apply Z.pow_le_mono_r; lia |].
    apply Z.log2_spec. lia. }
  rewrite Zdigits2_log2 by lia.
  rewrite <- Z.shiftr_div_pow2 by lia. rewrite Z.log2_shiftr by lia. lia.
Qed.

(** A shift above the underflow threshold keeps the magnitude. *)
Lemma shifted_magnitude (m e m' e' : Z) :
  0 < m -> -1074 < Zdigits2 m + e ->
  shifted m e m' e' ->
  Zdigits2 m' + e' = Zdigits2 m + e.
Proof.
  intros Hm Hd [(Hx & -> & ->) | (Hx & -> & ->)]; [reflexivity |].
  set (x := Z.max (Zdigits2 m + e - 53) (-1074)) in *.
  rewrite Zdigits2_div_pow2; lia.
Qed.

(** Rounding does not lower the magnitude. *)
Lemma binary_round_aux_above (L : Z) (s : bool) (m e : Z) (l : location) :
  0 < m -> -1074 < L -> L <= Zdigits2 m + e ->
  match binary_round_aux prec emax s m e l with
  | S754_finite _ m3 e3 => L <= Zdigits2 (Z.pos m3) + e3
  | S754_infinity _ => True
  | _ => False
  end.
Proof.
  intros Hm HL Hd.
  destruct (binary_round_aux_cases s m e l ltac:(lia))
    as (m1 & e1 & m2 & m3 & e3 & H1 & Hr & H2 & ->).
  destruct (shifted_pos m e m1 e1 Hm ltac:(lia) H1) as (Hm1 & _).
  pose proof (shifted_magnitude m e m1 e1 Hm ltac:(lia) H1) as Hg1.
  pose proof (Zdigits2_mono m1 m2 Hm1 ltac:(lia)) as Hmono.
  destruct (shifted_pos m2 e1 m3 e3 ltac:(lia) ltac:(lia) H2) as (Hm3 & _).
  pose proof (shifted_magnitude m2 e1 m3 e3 ltac:(lia) ltac:(lia) H2) as Hg2.
  destruct m3 as [| q | q]; try lia.
  destruct (e3 <=? 971); [lia | exact I].
Qed.

Lemma bounded_above (K L : Z) (x : float) :
  bounded_by K x ->
  match x with
  | S754_finite _ m e => L <= Zdigits2 (Z.pos m) + e
  | S754_infinity _ => True
  | _ => False
  end ->
  above L x.
Proof. destruct x; cbn; intuition. Qed.

(** The quotient of a positive integer below [2 ^ 1000] by 1,000,000 is
    at least [2 ^ -20]. *)
Lemma div_million_above (a : Z) :
  0 < a < 2 ^ 1000 -> above (-19) (div (exact a) (exact 1000000)).
Proof.
  intros Ha.
  pose proof (div_exact_bounded a 1000000 ltac:(lia) ltac:(lia)) as Hbd.
  apply (bounded_above 1001); [exact Hbd |]. clear Hbd.
  destruct a as [| pa | pa]; try lia.
  unfold div, SFdiv, exact, SFdiv_core_binary.
  change (Zdigits2 1000000) with 20. rewrite Z.add_0_r.
  set (da := Zdigits2 (Z.pos pa)).
  assert (Hda : 1 <= da <= 1000).
  { subst da. split.
    - rewrite Zdigits2_log2 by lia. pose proof (Z.log2_nonneg (Z.pos pa)). lia.
    - apply Zdigits2_le; lia. }
  rewrite fexp_eq.
  set (e' := Z.min (Z.max (da - (20 + 0) - 53) (-1074)) (0 - 0)).
  assert (He' : e' = Z.min (da - 73) 0) by (subst e'; lia).
  set (m' := match 0 - 0 - e' with
             | 0 => Z.pos pa | Z.pos _ => Z.shiftl (Z.pos pa) (0 - 0 - e') | Z.neg _ => 0
             end).
  assert (Hm' : m' = Z.pos pa * 2 ^ (- e')).
  { subst m'. replace (0 - 0 - e') with (- e') by lia.
    destruct (- e') as [| d | d] eqn:Ed; [cbn; lia | | lia].
    apply Z.shiftl_mul_pow2. lia. }
  assert (Hdiv : fst (Z.div_eucl m' 1000000) = m' / 1000000) by reflexivity.
  destruct (Z.div_eucl m' 1000000) as [q r]. cbn [fst] in Hdiv. subst q.
  assert (Hlow : 2 ^ (da - 1) <= Z.pos pa) by (apply Zdigits2_ge_pow2; lia).
  assert (Hq : 2 ^ (da - e' - 21) <= m' / 1000000).
  { apply Z.div_le_lower_bound; [lia |].
    rewrite Hm'. transitivity (2 ^ 20 * 2 ^ (da - e' - 21)).
    - apply Z.mul_le_mono_nonneg_r; [apply Z.pow_nonneg; lia | cbn; lia].
    - rewrite <- Z.pow_add_r by lia.
      replace (20 + (da - e' - 21)) with ((da - 1) + (- e')) by lia.
      rewrite Z.pow_add_r by lia.
      apply Z.mul_le_mono_nonneg_r; [apply Z.pow_nonneg; lia | exact Hlow]. }
  assert (Hqpos : 0 < m' / 1000000).
  { eapply Z.lt_le_trans; [| exact Hq]. apply Z.pow_pos_nonneg; lia. }
  apply binary_round_aux_above; [exact Hqpos | lia |].
  assert (Hdq : da - e' - 21 < Zdigits2 (m' / 1000000)).
  { rewrite Zdigits2_log2 by lia.
    assert (da - e' - 21 <= Z.log2 (m' / 1000000)); [| lia].
    apply Z.log2_le_pow2; [lia | exact Hq]. }
  lia.
Qed.

Lemma mul_above (Lx Ly K : Z) (x y : float) :
  above Lx x -> above Ly y -> -1074 < Lx + Ly - 1 ->
  bounded_by K (mul x y) ->
  above (Lx + Ly - 1) (mul x y).
Proof.
  intros Hx Hy HL Hb.
  destruct x as [| | | sx mx ex], y as [| | | sy my ey]; cbn [above] in Hx, Hy;
    try contradiction.
  apply (bounded_above K); [exact Hb |].
  unfold mul, SFmul. apply binary_round_aux_above; [lia | lia |].
  rewrite Pos2Z.inj_mul.
  rewrite (Zdigits2_log2 (Z.pos mx)), (Zdigits2_log2 (Z.pos my)) in * by lia.
  rewrite Zdigits2_log2 by lia.
  pose proof (Z.log2_mul_below (Z.pos mx) (Z.pos my) ltac:(lia) ltac:(lia)). lia.
Qed.

(** The sum of a positive number and one that is not negative is
    positive. *)
Lemma add_above (L K : Z) (x y : float) :
  above L x -> signless x -> signless y -> -1074 < L ->
  bounded_by K (add x y) ->
  above L (add x y).
Proof.
  intros Hx Sx Sy HL Hb.
  destruct x as [| | | sx mx ex], y as [sy | | | sy my ey];
    cbn [above signless] in Hx, Sx, Sy; try contradiction.
  - exact Hx.
  - subst sx sy. apply (bounded_above K); [exact Hb |]. clear Hb.
    unfold add, SFadd. cbn [cond_Zopp]. set (ez := Z.min ex ey).
    pose proof (shl_align_spec mx ex ez) as Hax. cbv zeta in Hax.
    destruct (shl_align mx ex ez) as [ax ex'].
    destruct (shl_align my ey ez) as [ay ey']. cbn [fst snd] in *.
    destruct Hax as [-> Hax]. replace (Z.min ex ez) with ez in Hax by lia.
    change (Z.pos ax + Z.pos ay) with (Z.pos (ax + ay)).
    cbn [binary_normalize]. unfold binary_round.
    pose proof (shl_align_spec (ax + ay) ez
                  (fexp prec emax (Z.pos (digits2_pos (ax + ay)) + ez))) as Hz.
    cbv zeta in Hz. destruct (shl_align (ax + ay) ez _) as [mz ez'].
    cbn [fst snd] in Hz. destruct Hz as [Hez Hmz].
    assert (Hdax : Zdigits2 (Z.pos ax) = Zdigits2 (Z.pos mx) + (ex - ez)).
    { rewrite Hax, !Zdigits2_log2 by lia.
      rewrite <- Z.shiftl_mul_pow2 by lia. rewrite Z.log2_shiftl by lia. lia. }
    assert (Hdmz : Zdigits2 (Z.pos mz) = Zdigits2 (Z.pos (ax + ay)) + (ez - ez')).
    { rewrite Hmz, !Zdigits2_log2 by lia.
      rewrite <- Z.shiftl_mul_pow2 by lia. rewrite Z.log2_shiftl by lia. lia. }
    pose proof (Zdigits2_mono (Z.pos ax) (Z.pos (ax + ay)) ltac:(lia) ltac:(lia)).
    apply binary_round_aux_above; lia.
Qed.

Lemma above_positive (L : Z) (x : float) :
  above L x -> signless x -> positive_float x = true.
Proof.
  destruct x as [| | | [] m e]; cbn; try contradiction; try discriminate.
  reflexivity.
Qed.

(** Every price of the table is at least [2 ^ -4]. *)
Lemma PRICING_large (model : string) (pr : pricing) :
  PRICING !! model = Some pr ->
  price_large (input pr) = true /\ price_large (output pr) = true.
Proof.
  intros H. apply elem_of_list_to_map_2 in H.
  repeat (apply elem_of_cons in H; destruct H as [[= _ ->] | H];
          [split; vm_compute; reflexivity |]).
  apply elem_of_nil in H. contradiction.
Qed.

Lemma price_large_above (x : float) : price_large x = true -> above (-3) x.
Proof.
  destruct x as [| | | s m e]; cbn [price_large above]; try discriminate.
  intros H. apply Z.leb_le in H. exact H.
Qed.

(** For a model of the pricing table, a positive input token count (below
    [2 ^ 1000]) and an output token count that is not negative, the input
    cost and the total cost are positive: a priced call is never reported
    as free. *)
Theorem calculate_cost_positive (now model : string) (pr : pricing)
    (input_tokens output_tokens latency_ms : Z) :
  PRICING !! model = Some pr ->
  0 < input_tokens < 2 ^ 1000 -> 0 <= output_tokens < 2 ^ 1000 ->
  exists e,
    calculate_cost now model input_tokens output_tokens latency_ms = Ok e /\
    positive_float (CostEntry.input_cost e) = true /\
    positive_float (CostEntry.total_cost e) = true.
Proof.
  intros Hpr Hi Ho. unfold calculate_cost.
  destruct (pricing_bounded model) as [[Hpi Hei] [Hpo Heo]]. cbv zeta in *.
  rewrite Hpr in *. cbn [default] in *.
  destruct (PRICING_ok model pr Hpr) as [Oin Oout].
  destruct (PRICING_large model pr Hpr) as [Lin _].
  pose proof (price_ok_signless _ Oin) as Spi.
  pose proof (price_ok_signless _ Oout) as Spo.
  pose proof (price_large_above _ Lin) as Api.
  pose proof (div_exact_bounded input_tokens 1000000 ltac:(lia) ltac:(lia)) as Bi.
  pose proof (div_exact_bounded output_tokens 1000000 ltac:(lia) ltac:(lia)) as Bo.
  pose proof (div_exact_signless input_tokens 1000000 ltac:(lia) ltac:(lia)) as Si.
  pose proof (div_exact_signless output_tokens 1000000 Ho ltac:(lia)) as So.
  pose proof (div_million_above input_tokens Hi) as Ai.
  destruct (int_truediv_ok input_tokens 1000000 ltac:(lia) ltac:(lia)) as (qi & Ei & _).
  destruct (int_truediv_ok output_tokens 1000000 ltac:(lia) ltac:(lia)) as (qo & Eo & _).
  assert (Hqi : qi = div (exact input_tokens) (exact 1000000)).
  { unfold int_truediv in Ei. cbn [Z.eqb] in Ei.
    destruct (is_infinite _); congruence. }
  assert (Hqo : qo = div (exact output_tokens) (exact 1000000)).
  { unfold int_truediv in Eo. cbn [Z.eqb] in Eo.
    destruct (is_infinite _); congruence. }
  rewrite Ei, Eo. cbn [rbind]. subst qi qo.
  pose proof (mul_bounded 1001 7 _ _ Bi Hpi Hei ltac:(lia)) as Mi.
  pose proof (mul_bounded 1001 7 _ _ Bo Hpo Heo ltac:(lia)) as Mo.
  pose proof (add_bounded (1001 + 7 + 1) _ _ Mi Mo ltac:(lia)) as Hsum.
  pose proof (mul_signless _ _ _ Si Spi Mi) as SMi.
  pose proof (mul_signless _ _ _ So Spo Mo) as SMo.
  pose proof (mul_above (-19) (-3) _ _ _ Ai Api ltac:(lia) Mi) as AMi.
  pose proof (add_above _ _ _ _ AMi SMi SMo ltac:(lia) Hsum) as AS.
  pose proof (add_signless _ _ _ SMi SMo Hsum) as SS.
  eexists. split; [reflexivity |].
  cbn [CostEntry.total_cost CostEntry.input_cost].
  split; eapply above_positive; eassumption.
Qed.

End Pricing_more.

(** * The further properties on sample runs *)

Section Samples_more.

Lemma shelf_heap_1 : heap shelf_world !! 1%positive = Some sample_entries.
Proof. vm_compute. reflexivity. Defined.

Lemma shelf_heap_2 : heap shelf_world !! 2%positive = Some [early_entry; late_entry].
Proof. vm_compute. reflexivity. Defined.

Lemma shelf_heap_3 : heap shelf_world !! 3%positive = Some [late_entry].
Proof. vm_compute. reflexivity. Defined.

Lemma shelf_run (p : loc) :
  (p = 1 \/ p = 2 \/ p = 3)%positive ->
  aggregate_costs p "run-1" shelf_world = (Ok (run_of p "run-1" shelf_world), shelf_world).
Proof. intros [-> | [-> | ->]]; vm_compute; reflexivity. Defined.

Lemma aggregate_costs_append_sample :
  RunCosts.total_tokens (run_of 1%positive "run-1" shelf_world)
  = RunCosts.total_tokens (run_of 3%positive "run-1" shelf_world) + 900 + 100 /\
  RunCosts.total_latency_ms (run_of 1%positive "run-1" shelf_world)
  = RunCosts.total_latency_ms (run_of 3%positive "run-1" shelf_world) + 650 /\
  RunCosts.completed_at (run_of 1%positive "run-1" shelf_world) = "2024-12-01T09:00:00".
Proof.
  destruct (aggregate_costs_append shelf_world shelf_world 3%positive 1%positive [late_entry]
              early_entry "run-1" (run_of 3%positive "run-1" shelf_world)
              (run_of 1%positive "run-1" shelf_world) shelf_heap_3 shelf_heap_1
              (shelf_run 3%positive ltac:(auto)) (shelf_run 1%positive ltac:(auto)))
    as (_ & _ & Ht & Hl & _ & _ & _ & Hc).
  split; [exact Ht |]. split; [exact Hl | exact Hc].
Defined.

Lemma sample_permutation : Permutation sample_entries [early_entry; late_entry].
Proof. apply perm_swap. Defined.

Lemma aggregate_costs_reordered_sample :
  exists r',
    aggregate_costs 2%positive "run-1" shelf_world = (Ok r', shelf_world) /\
    RunCosts.total_input_tokens r'
    = RunCosts.total_input_tokens (run_of 1%positive "run-1" shelf_world) /\
    RunCosts.total_output_tokens r'
    = RunCosts.total_output_tokens (run_of 1%positive "run-1" shelf_world) /\
    RunCosts.total_tokens r' = RunCosts.total_tokens (run_of 1%positive "run-1" shelf_world) /\
    RunCosts.total_latency_ms r'
    = RunCosts.total_latency_ms (run_of 1%positive "run-1" shelf_world) /\
    RunCosts.avg_latency_ms r'
    = RunCosts.avg_latency_ms (run_of 1%positive "run-1" shelf_world).
Proof.
  exact (aggregate_costs_reordered shelf_world shelf_world 1%positive 2%positive sample_entries
           [early_entry; late_entry] "run-1" (run_of 1%positive "run-1" shelf_world)
           shelf_heap_1 shelf_heap_2 sample_permutation (shelf_run 1%positive ltac:(auto))).
Defined.

Lemma priced_heap : heap priced_world !! 1%positive = Some priced_entries.
Proof. vm_compute. reflexivity. Defined.

Lemma priced_entries_made :
  Forall (fun e => exists now model it ot lat,
            calculate_cost now model it ot lat = Ok e) priced_entries.
Proof.
  repeat constructor.
  - exists "2024-12-01T09:00:00", "gpt-4o", 1200, 300, 800. vm_compute. reflexivity.
  - exists "2024-12-01T09:00:07", "gpt-4o", 950, 410, 1210. vm_compute. reflexivity.
  - exists "2024-12-01T09:00:15", "no-such-model", 20, 5, 90. vm_compute. reflexivity.
Defined.

Lemma aggregate_costs_of_priced_entries_sample :
  RunCosts.total_tokens (run_of 1%positive "run-2" priced_world)
  = Zsum (map CostEntry.total_tokens priced_entries).
Proof.
  apply (aggregate_costs_of_priced_entries priced_world priced_world 1%positive
           priced_entries "run-2" (run_of 1%positive "run-2" priced_world)
           priced_heap priced_entries_made).
  vm_compute. reflexivity.
Defined.



Lemma calculate_cost_not_negative_sample :
  exists e,
    calculate_cost "2024-12-01T09:00:00" "gpt-4o" 1200 0 800 = Ok e /\
    not_negative (CostEntry.input_cost e) = true /\
    not_negative (CostEntry.output_cost e) = true /\
    not_negative (CostEntry.total_cost e) = true.
Proof.
  apply (calculate_cost_not_negative "2024-12-01T09:00:00" "gpt-4o" 1200 0 800);
    split; vm_compute; congruence.
Defined.

Lemma calculate_cost_positive_sample :
  exists e,
    calculate_cost "2024-12-01T09:00:00" "gemini-1.5-flash" 1 0 800 = Ok e /\
    positive_float (CostEntry.input_cost e) = true /\
    positive_float (CostEntry.total_cost e) = true.
Proof.
  apply (calculate_cost_positive "2024-12-01T09:00:00" "gemini-1.5-flash"
           {| input := lit 75 1000; output := lit 30 100 |} 1 0 800);
    [vm_compute; reflexivity | split; vm_compute; congruence ..].
Defined.

End Samples_more.

(** * aggregate_scores *)

Section Scoring.

Lemma count_filter (cond : Score.t -> bool) (scores : list Score.t) :
  count cond scores = len (List.filter cond scores).
Proof.
  unfold count, len. rewrite py_sum_Zsum.
  induction (List.filter cond scores) as [| s l IH]; [reflexivity |].
  cbn [map Zsum fold_right length]. unfold Zsum in IH. lia.
Qed.

Lemma count_bounds (cond : Score.t -> bool) (scores : list Score.t) :
  0 <= count cond scores <= len scores.
Proof.
  rewrite count_filter. unfold len.
  pose proof (List.filter_length_le cond scores). lia.
Qed.

Lemma count_all (cond : Score.t -> bool) (scores : list Score.t) :
  Forall (fun s => cond s = true) scores -> count cond scores = len scores.
Proof.
  intros H. rewrite count_filter. f_equal.
  induction H as [| s l Hs _ IH]; [reflexivity |].
  cbn [List.filter]. rewrite Hs. cbn [length]. congruence.
Qed.

Lemma count_none (cond : Score.t -> bool) (scores : list Score.t) :
  Forall (fun s => cond s = false) scores -> count cond scores = 0.
Proof.
  intros H. rewrite count_filter.
  induction H as [| s l Hs _ IH]; [reflexivity |].
  cbn [List.filter]. rewrite Hs. exact IH.
Qed.

(** A count over [n] scores, divided by [n]. *)
Lemma rate_returns (c n : Z) :
  0 <= c <= n -> 0 < n < 2 ^ 63 ->
  int_truediv c n = Ok (div (exact c) (exact n)).
Proof.
  intros Hc Hn. unfold int_truediv.
  destruct (Z.eqb_spec n 0) as [-> | _]; [lia |].
  assert (Hlt : Z.abs c < 2 ^ 1000).
  { apply Z.lt_trans with (2 ^ 63); [lia |]. apply Z.pow_lt_mono_r; lia. }
  pose proof (div_exact_finite c n ltac:(lia) Hlt) as Hf.
  destruct (div (exact c) (exact n)); cbn in Hf |- *; congruence.
Qed.

Lemma float_div_int_returns (x : float) (n : Z) :
  0 < n < 2 ^ 63 -> exists y, float_div_int x n = Ok y.
Proof.
  intros Hn.
  assert (Hlt : 0 < n < 2 ^ 1023).
  { split; [lia |]. apply Z.lt_trans with (2 ^ 63); [lia |].
    apply Z.pow_lt_mono_r; lia. }
  destruct (float_of_int_ok n Hlt) as (y & Hy & Hz & _).
  unfold float_div_int. rewrite Hy. cbn [rbind]. unfold float_truediv.
  rewrite Hz. eexists. reflexivity.
Qed.

(** What [aggregate_scores] returns on a list that is not empty. *)
Lemma aggregate_scores_inv (scores : list Score.t) (run_id : string) :
  scores <> [] -> len scores < 2 ^ 63 ->
  exists completion_rate,
    float_div_int (py_sum_float (map Score.complete scores)) (len scores)
    = Ok completion_rate /\
    aggregate_scores scores run_id
    = Ok (EvalResult.mk run_id scores
            (div (exact (count Score.accurate scores)) (exact (len scores)))
            completion_rate
            (div (exact (count (fun s => Score.cited s =? 2) scores))
               (exact (len scores)))
            (div (exact (count is_hallucination scores)) (exact (len scores)))
            []).
Proof.
  intros Hne Hlen.
  assert (Hn : 0 < len scores < 2 ^ 63).
  { split; [| exact Hlen]. destruct scores; [congruence | apply len_pos]. }
  destruct (float_div_int_returns (py_sum_float (map Score.complete scores))
              (len scores) Hn) as (y & Hy).
  exists y. split; [exact Hy |].
  unfold aggregate_scores. cbv zeta.
  destruct (Z.eqb_spec (len scores) 0) as [E | _]; [lia |].
  rewrite !rate_returns by (trivial; apply count_bounds).
  rewrite Hy. reflexivity.
Qed.

(** The quotient of a positive integer by itself is [1.0]. *)
Lemma div_self (n : Z) : 0 < n -> div (exact n) (exact n) = one.
Proof.
  intros Hn. destruct n as [| p | p]; try lia.
  unfold div, SFdiv, exact. cbn [xorb].
  assert (Hcore : SFdiv_core_binary prec emax (Z.pos p) 0 (Z.pos p) 0
                  = (2 ^ 53, -53, loc_Exact)).
  { unfold SFdiv_core_binary.
    replace (Zdigits2 (Z.pos p) + 0 - (Zdigits2 (Z.pos p) + 0)) with 0 by lia.
    change (Z.min (fexp prec emax 0) (0 - 0)) with (-53).
    change (0 - 0 - -53) with 53.
    cbv beta iota zeta.
    rewrite Z.shiftl_mul_pow2 by lia.
    pose proof (Z.div_eucl_eq (Z.pos p * 2 ^ 53) (Z.pos p) ltac:(lia)) as Heq.
    pose proof (Z.mod_pos_bound (Z.pos p * 2 ^ 53) (Z.pos p) ltac:(lia)) as Hmod.
    assert (Hq : fst (Z.div_eucl (Z.pos p * 2 ^ 53) (Z.pos p)) = 2 ^ 53).
    { change (fst (Z.div_eucl (Z.pos p * 2 ^ 53) (Z.pos p)))
        with ((Z.pos p * 2 ^ 53) / Z.pos p).
      rewrite Z.mul_comm. apply Z.div_mul. lia. }
    assert (Hr : snd (Z.div_eucl (Z.pos p * 2 ^ 53) (Z.pos p)) = 0).
    { change (snd (Z.div_eucl (Z.pos p * 2 ^ 53) (Z.pos p)))
        with ((Z.pos p * 2 ^ 53) mod Z.pos p).
      rewrite Z.mul_comm. apply Z.mod_mul. lia. }
    destruct (Z.div_eucl (Z.pos p * 2 ^ 53) (Z.pos p)) as [q r].
    cbn [fst snd] in Hq, Hr. subst q r.
    f_equal. unfold new_location.
    destruct (Z.even (Z.pos p)); reflexivity. }
  rewrite Hcore. vm_compute. reflexivity.
Qed.

Lemma div_zero (n : Z) : 0 < n -> div (exact 0) (exact n) = pzero.
Proof. intros Hn. destruct n as [| p | p]; try lia. reflexivity. Qed.

End Scoring.

(** * The rates of aggregate_scores *)

Section Rates.

Lemma shifted_at_most (K m e m' e' : Z) :
  0 <= m -> -1021 <= K -> e <= K -> m <= 2 ^ (K - e) ->
  shifted m e m' e' -> m' <= 2 ^ (K - e') /\ e' <= K.
Proof.
  intros Hm HK He Hle Hs.
  assert (Hd : Zdigits2 m <= K - e + 1).
  { apply Zdigits2_le; try lia.
    replace (K - e + 1) with (Z.succ (K - e)) by lia.
    rewrite Z.pow_succ_r by lia.
    assert (0 < 2 ^ (K - e)) by (apply Z.pow_pos_nonneg; lia). lia. }
  destruct Hs as [(Hx & -> & ->) | (Hx & -> & ->)]; [lia |].
  set (x := Z.max (Zdigits2 m + e - 53) (-1074)) in *.
  split; [| lia].
  assert (Hpow : 0 < 2 ^ (x - e)) by (apply Z.pow_pos_nonneg; lia).
  transitivity (2 ^ (K - e) / 2 ^ (x - e)).
  - apply Z.div_le_mono; lia.
  - replace (K - e) with ((K - x) + (x - e)) by lia.
    rewrite Z.pow_add_r by lia. rewrite Z.div_mul by lia. lia.
Qed.

(** Rounding a value below 1 gives a value that is at most 1. *)
Lemma binary_round_aux_unit (m e : Z) (l : location) :
  0 <= m -> e <= 0 -> m < 2 ^ (- e) ->
  unit_interval (binary_round_aux prec emax false m e l).
Proof.
  intros Hm He Hlt.
  destruct (binary_round_aux_cases false m e l Hm)
    as (m1 & e1 & m2 & m3 & e3 & H1 & Hr & H2 & ->).
  pose proof (shifted_nonneg _ _ _ _ Hm H1) as Hm1.
  destruct (shifted_bound 0 m e m1 e1 Hm ltac:(lia) He Hlt H1) as (B1 & B2 & _).
  destruct (shifted_at_most 0 m2 e1 m3 e3 ltac:(lia) ltac:(lia) B2 ltac:(lia) H2)
    as (B3 & B4).
  pose proof (shifted_nonneg m2 e1 m3 e3 ltac:(lia) H2) as Hm3.
  destruct m3 as [| q | q]; [exact I | | lia].
  destruct (Z.leb_spec e3 971); [| lia].
  cbn [unit_interval]. split; [lia | exact B3].
Qed.

(** A part of a whole, divided by the whole, lies between 0 and 1. *)
Lemma div_exact_unit (a b : Z) :
  0 <= a <= b -> 0 < b -> unit_interval (div (exact a) (exact b)).
Proof.
  intros Ha Hb.
  destruct (Z.eq_dec a 0) as [-> | Hnz].
  { rewrite div_zero by trivial. exact I. }
  destruct (Z.eq_dec a b) as [-> | Hne].
  { rewrite div_self by trivial. cbn [unit_interval one]. split; [lia |].
    vm_compute. discriminate. }
  destruct a as [| pa | pa]; try lia. destruct b as [| pb | pb]; try lia.
  unfold div, SFdiv, exact. cbn [xorb].
  destruct (SFdiv_core_binary_spec (Z.pos pa) 0 (Z.pos pb) 0)
    as (q & e' & l & -> & He & Hq); try lia.
  assert (Hpow : 0 < 2 ^ (0 - 0 - e')) by (apply Z.pow_pos_nonneg; lia).
  apply binary_round_aux_unit; try lia.
  - subst q. apply Z.div_pos; nia.
  - subst q. apply Z.div_lt_upper_bound; [lia |].
    replace (- e') with (0 - 0 - e') by lia. nia.
Qed.

Lemma unit_interval_one : unit_interval one.
Proof. cbn. split; [lia | discriminate]. Qed.

(** [float(n)] for a positive [n] is a positive number. *)
Lemma float_of_int_positive (n : Z) (y : float) :
  0 < n -> float_of_int n = Ok y -> exists m e, y = S754_finite false m e.
Proof.
  intros Hn Hy. pose proof (float_of_int_pos n y Hn Hy) as Hz.
  destruct n as [| q | q]; try lia.
  unfold float_of_int, binary_normalize, binary_round in Hy.
  destruct (shl_align q 0 _) as [mz ez].
  pose proof (binary_round_aux_sign false (Z.pos mz) ez loc_Exact ltac:(lia)) as Hs.
  destruct (binary_round_aux prec emax false (Z.pos mz) ez loc_Exact)
    as [s | s | | s m e]; cbn in Hy; try discriminate.
  - injection Hy as <-. discriminate.
  - destruct Hs.
  - injection Hy as <-. subst s. eauto.
Qed.

Lemma py_sum_float_zeros {A : Type} (l : list A) :
  py_sum_float (map (fun _ => pzero) l) = pzero.
Proof.
  unfold py_sum_float.
  induction l as [| a l IH]; [reflexivity |]. cbn [map fold_left]. exact IH.
Qed.

(** [aggregate_scores] fails on the empty list and on no other list: a
    list that is not empty always gets a result (a Python list has fewer
    than [2 ^ 63] items), which holds the run id and the scores given and
    no categories. *)
Theorem aggregate_scores_fails_only_on_empty (scores : list Score.t)
    (run_id : string) :
  len scores < 2 ^ 63 ->
  (scores = [] ->
   aggregate_scores scores run_id = Raise (ValueError "No scores to aggregate")) /\
  (scores <> [] ->
   exists r,
     aggregate_scores scores run_id = Ok r /\
     EvalResult.run_id r = run_id /\
     EvalResult.scores r = scores /\
     EvalResult.scores_by_category r = []).
Proof.
  intros Hlen. split.
  - intros ->. reflexivity.
  - intros Hne.
    destruct (aggregate_scores_inv scores run_id Hne Hlen) as (c & _ & ->).
    eexists. split; [reflexivity |]. repeat split.
Qed.

(** The accuracy, citation and hallucination rates are fractions: each
    lies between 0 and 1. *)
Theorem aggregate_scores_rates_are_fractions (scores : list Score.t)
    (run_id : string) :
  scores <> [] -> len scores < 2 ^ 63 ->
  exists r,
    aggregate_scores scores run_id = Ok r /\
    unit_interval (EvalResult.accuracy_rate r) /\
    unit_interval (EvalResult.citation_rate r) /\
    unit_interval (EvalResult.hallucination_rate r).
Proof.
  intros Hne Hlen.
  destruct (aggregate_scores_inv scores run_id Hne Hlen) as (c & _ & ->).
  assert (Hn : 0 < len scores) by (destruct scores; [congruence | apply len_pos]).
  eexists. split; [reflexivity |].
  cbn [EvalResult.accuracy_rate EvalResult.citation_rate
       EvalResult.hallucination_rate].
  repeat split; apply div_exact_unit; trivial; apply count_bounds.
Qed.

(** A rate is exactly [1.0] when every score counts and exactly [0.0]
    when none does: for accuracy, for full citation ([cited == 2]) and for
    hallucination. *)
Theorem aggregate_scores_all_or_none (scores : list Score.t) (run_id : string) :
  scores <> [] -> len scores < 2 ^ 63 ->
  exists r,
    aggregate_scores scores run_id = Ok r /\
    (Forall (fun s => Score.accurate s = true) scores ->
     EvalResult.accuracy_rate r = one) /\
    (Forall (fun s => Score.accurate s = false) scores ->
     EvalResult.accuracy_rate r = pzero) /\
    (Forall (fun s => Score.cited s = 2) scores ->
     EvalResult.citation_rate r = one) /\
    (Forall (fun s => Score.cited s <> 2) scores ->
     EvalResult.citation_rate r = pzero) /\
    (Forall (fun s => Score.failure_mode s = Some FailureMode.HALLUCINATION) scores ->
     EvalResult.hallucination_rate r = one) /\
    (Forall (fun s => Score.failure_mode s <> Some FailureMode.HALLUCINATION) scores ->
     EvalResult.hallucination_rate r = pzero).
Proof.
  intros Hne Hlen.
  destruct (aggregate_scores_inv scores run_id Hne Hlen) as (c & _ & ->).
  assert (Hn : 0 < len scores) by (destruct scores; [congruence | apply len_pos]).
  eexists. split; [reflexivity |].
  cbn [EvalResult.accuracy_rate EvalResult.citation_rate
       EvalResult.hallucination_rate].
  repeat split; intros Hall.
  - rewrite count_all by exact Hall. apply div_self, Hn.
  - rewrite count_none by exact Hall. apply div_zero, Hn.
  - rewrite count_all; [apply div_self, Hn |].
    eapply List.Forall_impl; [| exact Hall]. cbv beta. intros s ->. reflexivity.
  - rewrite count_none; [apply div_zero, Hn |].
    eapply List.Forall_impl; [| exact Hall]. cbv beta. intros s Hs.
    apply Z.eqb_neq, Hs.
  - rewrite count_all; [apply div_self, Hn |].
    eapply List.Forall_impl; [| exact Hall]. cbv beta. intros s Hs.
    unfold is_hallucination. rewrite Hs. reflexivity.
  - rewrite count_none; [apply div_zero, Hn |].
    eapply List.Forall_impl; [| exact Hall]. cbv beta. intros s Hs.
    unfold is_hallucination.
    destruct (Score.failure_mode s) as [[] |]; try reflexivity. congruence.
Qed.

End Rates.

(** * score_response *)

Section Template.

Lemma lstrip_nil (s : text) : lstrip s = [] <-> forallb isspace s = true.
Proof.
  induction s as [| c s IH]; [cbn; tauto |].
  cbn [lstrip forallb]. destruct (isspace c); cbn [andb]; [exact IH |].
  split; discriminate.
Qed.

Lemma forallb_rev {A : Type} (f : A -> bool) (l : list A) :
  forallb f (rev l) = forallb f l.
Proof.
  induction l as [| a l IH]; [reflexivity |].
  cbn [rev forallb]. rewrite forallb_app, IH. cbn [forallb].
  destruct (f a), (forallb f l); reflexivity.
Qed.

Lemma forallb_lstrip (s : text) :
  forallb isspace (lstrip s) = forallb isspace s.
Proof.
  induction s as [| c s IH]; [reflexivity |].
  cbn [lstrip]. destruct (isspace c) eqn:E; [| reflexivity].
  cbn [forallb]. rewrite E. exact IH.
Qed.

(** Stripping leaves nothing exactly when every character is white space. *)
Lemma strip_nil (s : text) : strip s = [] <-> forallb isspace s = true.
Proof.
  unfold strip, rstrip. rewrite <- forallb_lstrip, <- forallb_rev, <- lstrip_nil.
  split.
  - intros H. apply (f_equal (@rev N)) in H. rewrite rev_involutive in H. exact H.
  - intros ->. reflexivity.
Qed.

(** [found] tells whether the response holds anything but white space. *)
Theorem score_response_found (question_id : string) (response : text)
    (ground_truth : Json.t) (scorer : string) :
  Score.found (score_response question_id response ground_truth scorer) = true
  <-> exists c, In c response /\ isspace c = false.
Proof.
  cbn [score_response Score.found].
  assert (H : forallb isspace response = false
              <-> exists c, In c response /\ isspace c = false).
  { rewrite <- not_true_iff_false, forallb_forall. split.
    - intros Hn. induction response as [| c r IH].
      + exfalso. apply Hn. intros x [].
      + destruct (isspace c) eqn:E.
        * destruct IH as (x & Hx & Hs).
          { intros Hall. apply Hn. intros y [<- | Hy]; auto. }
          exists x. split; [right; exact Hx | exact Hs].
        * exists c. split; [left; reflexivity | exact E].
    - intros (c & Hc & Hs) Hall. rewrite (Hall c Hc) in Hs. discriminate. }
  rewrite <- H. pose proof (strip_nil response) as Hs.
  unfold len. destruct (strip response) as [| c r].
  - cbn. destruct Hs as [Hs _]. rewrite (Hs eq_refl). split; discriminate.
  - destruct (forallb isspace response).
    + destruct Hs as [_ Hs]. discriminate (Hs eq_refl).
    + split; trivial.
Qed.

(** Scores that come from [score_response] alone aggregate to zero
    rates: the template never reports a score as accurate, complete, fully
    cited or hallucinated. *)
Theorem aggregate_scores_of_template (scores : list Score.t) (run_id : string) :
  scores <> [] -> len scores < 2 ^ 63 ->
  Forall (fun s => exists question_id response ground_truth scorer,
            s = score_response question_id response ground_truth scorer) scores ->
  exists r,
    aggregate_scores scores run_id = Ok r /\
    EvalResult.accuracy_rate r = pzero /\
    EvalResult.completion_rate r = pzero /\
    EvalResult.citation_rate r = pzero /\
    EvalResult.hallucination_rate r = pzero.
Proof.
  intros Hne Hlen Hall.
  destruct (aggregate_scores_inv scores run_id Hne Hlen) as (c & Hc & ->).
  assert (Hn : 0 < len scores) by (destruct scores; [congruence | apply len_pos]).
  eexists. split; [reflexivity |].
  cbn [EvalResult.accuracy_rate EvalResult.completion_rate
       EvalResult.citation_rate EvalResult.hallucination_rate].
  assert (Hsum : map Score.complete scores = map (fun _ => pzero) scores).
  { clear -Hall. induction Hall as [| s l (q & r & g & sc & ->) _ IH];
      [reflexivity |]. cbn [map]. rewrite IH. reflexivity. }
  rewrite Hsum, py_sum_float_zeros in Hc.
  unfold float_div_int in Hc.
  destruct (float_of_int (len scores)) as [y |] eqn:Ey; [| discriminate].
  destruct (float_of_int_positive _ _ Hn Ey) as (m & e & ->).
  cbn in Hc. injection Hc as <-.
  repeat split.
  - rewrite count_none; [apply div_zero, Hn |].
    eapply List.Forall_impl; [| exact Hall]. cbv beta.
    intros s (q & r & g & sc & ->). reflexivity.
  - rewrite count_none; [apply div_zero, Hn |].
    eapply List.Forall_impl; [| exact Hall]. cbv beta.
    intros s (q & r & g & sc & ->). reflexivity.
  - rewrite count_none; [apply div_zero, Hn |].
    eapply List.Forall_impl; [| exact Hall]. cbv beta.
    intros s (q & r & g & sc & ->). reflexivity.
Qed.

End Template.

(** * Stored results: save_eval and load_eval, save_response and
      load_response *)

Section Stored_results.

Lemma load_score_dict (s : Score.t) : load_score (score_dict s) = Done (Some s).
Proof.
  destruct s as [q f a c ci r ac sc ad fm fn scr sa].
  destruct sc, ad, fn, scr, sa, fm as [[] |]; vm_compute; reflexivity.
Qed.

Lemma mapM_load_score (l : list Score.t) :
  mapM load_score (map score_dict l) = Done (map Some l).
Proof.
  induction l as [| s l IH]; [reflexivity |].
  cbn [map mapM]. rewrite load_score_dict, IH. reflexivity.
Qed.

Lemma mapM_id_Some {A : Type} (l : list A) : mapM id (map Some l) = Some l.
Proof.
  induction l as [| a l IH]; [reflexivity |].
  cbn [map mapM]. rewrite IH. reflexivity.
Qed.

Lemma dump_then_load (data : Json.t) (path : string) (d d' : disk) :
  dump_json data path d = (Done tt, d') -> load_json path d' = Done data.
Proof.
  unfold dump_json, load_json.
  destruct (decide (path ∈ protected d)); [discriminate |].
  intros [= <-]. cbn [documents]. rewrite lookup_insert_eq. reflexivity.
Qed.

(** A result saved by [save_eval] is read back by [load_eval] with every
    score and every rate as it was, and with no categories: the file does
    not hold [scores_by_category].  A result without categories, such as
    [aggregate_scores] returns, is read back as it was. *)
Theorem save_load_eval (result : EvalResult.t) (path : string) (d d' : disk) :
  save_eval result path d = (Done tt, d') ->
  load_eval path d' = Done (Some (without_categories result)) /\
  (EvalResult.scores_by_category result = [] ->
   load_eval path d' = Done (Some result)).
Proof.
  intros Hs. apply dump_then_load in Hs.
  assert (H : load_eval path d' = Done (Some (without_categories result))).
  { unfold load_eval. rewrite Hs.
    destruct result as [rid scores acc comp cit hal cats].
    cbn [mbind outcome_bind save_eval_data subscript lookup_key List.find fst snd
         fmap option_fmap option_map String.eqb Ascii.eqb Bool.eqb iterate
         EvalResult.scores EvalResult.run_id EvalResult.accuracy_rate
         EvalResult.completion_rate EvalResult.citation_rate
         EvalResult.hallucination_rate].
    rewrite mapM_load_score.
    cbn [mbind outcome_bind option_bind as_str as_float as_dict default
         lookup_key List.find fst snd fmap option_fmap option_map
         String.eqb Ascii.eqb Bool.eqb].
    rewrite mapM_id_Some. reflexivity. }
  split; [exact H |].
  intros Hc. rewrite H. destruct result; cbn in Hc; subst. reflexivity.
Qed.

Lemma typed_response_asdict (r : LLMResponse.t) :
  match asdict_response r with
  | Json.Obj members =>
      accepts response_fields response_required members = true /\
      typed_response members = Some r
  | _ => False
  end.
Proof. destruct r as [c m i o l t [raw |]]; split; vm_compute; reflexivity. Qed.

(** A response saved by [save_response] is read back by [load_response]
    as it was, the raw provider dictionary included. *)
Theorem save_load_response (response : LLMResponse.t) (path : string)
    (d d' : disk) :
  save_response response path d = (Done tt, d') ->
  load_response path d' = Done (Some response).
Proof.
  intros Hs. apply dump_then_load in Hs.
  unfold load_response. rewrite Hs. cbn [mbind outcome_bind].
  pose proof (typed_response_asdict response) as H.
  destruct (asdict_response response); try contradiction.
  destruct H as [-> ->]. reflexivity.
Qed.

End Stored_results.

(** * Parsed documents on disk: save_parsed and load_parsed *)

Section Parsed_documents.

#[local] Instance string_le_total : Total string_le.
Proof. intros a b. apply String.leb_total. Qed.

#[local] Instance string_le_antisym : AntiSymm (=) string_le.
Proof. intros a b. apply String.leb_antisym. Qed.

Lemma ltb_lt (a b : string) :
  String.ltb a b = true <-> OrderedTypeEx.String_as_OT.lt a b.
Proof.
  unfold String.ltb.
  pose proof (OrderedTypeEx.String_as_OT.cmp_lt a b) as Hl.
  unfold OrderedTypeEx.String_as_OT.cmp in Hl.
  destruct (String.compare a b).
  - split; [discriminate |]. intros H. apply Hl in H. discriminate.
  - split; trivial. intros _. apply Hl. reflexivity.
  - split; [discriminate |]. intros H. apply Hl in H. discriminate.
Qed.

Lemma leb_lt (a b : string) :
  String.leb a b = true <-> a = b \/ OrderedTypeEx.String_as_OT.lt a b.
Proof.
  unfold String.leb.
  pose proof (OrderedTypeEx.String_as_OT.cmp_eq a b) as He.
  pose proof (OrderedTypeEx.String_as_OT.cmp_lt a b) as Hl.
  unfold OrderedTypeEx.String_as_OT.cmp in He, Hl.
  destruct (String.compare a b).
  - split; trivial. intros _. left. apply He. reflexivity.
  - split; trivial. intros _. right. apply Hl. reflexivity.
  - split; [discriminate |]. intros [H | H].
    + apply He in H. discriminate.
    + apply Hl in H. discriminate.
Qed.

#[local] Instance string_le_trans : Transitive string_le.
Proof.
  intros a b c. unfold string_le. rewrite !leb_lt.
  intros [-> | H1] [-> | H2]; auto.
  right. eapply OrderedTypeEx.String_as_OT.lt_trans; eassumption.
Qed.

#[local] Instance string_lt_trans : Transitive string_lt.
Proof.
  intros a b c. unfold string_lt. rewrite !ltb_lt.
  apply OrderedTypeEx.String_as_OT.lt_trans.
Qed.

Lemma string_lt_le (a b : string) : string_lt a b -> string_le a b.
Proof. unfold string_lt, string_le. rewrite ltb_lt, leb_lt. auto. Qed.

Lemma string_lt_neq (a b : string) : string_lt a b -> a <> b.
Proof.
  unfold string_lt. rewrite ltb_lt. intros H ->.
  exact (OrderedTypeEx.String_as_OT.lt_not_eq _ _ H eq_refl).
Qed.

Lemma increasing_NoDup (l : list string) : StronglySorted string_lt l -> NoDup l.
Proof.
  induction 1 as [| x l _ IH Hx]; constructor; trivial.
  intros Hin. rewrite List.Forall_forall in Hx.
  apply list_elem_of_In in Hin.
  exact (string_lt_neq _ _ (Hx x Hin) eq_refl).
Qed.

Lemma increasing_sorted (l : list string) :
  StronglySorted string_lt l -> StronglySorted string_le l.
Proof.
  induction 1 as [| x l _ IH Hx]; constructor; trivial.
  eapply List.Forall_impl; [| exact Hx]. apply string_lt_le.
Qed.

(** The names of the first 999 pages are in increasing order. *)
Lemma page_names_increasing : StronglySorted string_lt page_names.
Proof.
  apply Sorted_StronglySorted; [exact _ |].
  apply (bool_decide_eq_true_1 (Sorted string_lt page_names)).
  vm_compute. reflexivity.
Qed.

(** The name of page 1000 comes between those of pages 100 and 101. *)
Lemma thousand_names_increasing :
  StronglySorted string_lt (page_name <$> thousand_order).
Proof.
  apply Sorted_StronglySorted; [exact _ |].
  apply (bool_decide_eq_true_1 (Sorted string_lt (page_name <$> thousand_order))).
  vm_compute. reflexivity.
Qed.

Lemma thousand_order_Permutation : thousand_order ≡ₚ seq 0 1000.
Proof.
  unfold thousand_order.
  change (seq 0 1000) with (seq 0 100 ++ seq 100 899 ++ [999%nat])%list.
  apply Permutation_app_head. apply Permutation_app_comm.
Qed.

Lemma names_prefix (n : nat) :
  (n <= 999)%nat -> page_name <$> seq 0 n = take n page_names.
Proof.
  intros Hn. unfold page_names.
  change (map page_name (seq 0 999)) with (page_name <$> seq 0 999).
  rewrite <- fmap_take. f_equal.
  rewrite take_seq. f_equal. lia.
Qed.

Lemma names_increasing (n : nat) :
  (n <= 999)%nat -> StronglySorted string_lt (page_name <$> seq 0 n).
Proof.
  intros Hn. rewrite names_prefix by exact Hn.
  pose proof page_names_increasing as H.
  rewrite <- (take_drop n page_names) in H.
  eapply StronglySorted_app_1_l. exact H.
Qed.

Lemma page_files_names (pages : list string) (i : nat) :
  (page_files pages i).*1 = page_name <$> seq i (length pages).
Proof.
  revert i. induction pages as [| p rest IH]; intros i; [reflexivity |].
  cbn [page_files length seq fmap list_fmap fst]. f_equal. apply IH.
Qed.

(** On a directory where no entry has the name of a page, the loop
    writes every page. *)
Lemma write_pages_fresh (pages : list string) (i : nat) (folder : gmap string fnode) :
  NoDup (page_name <$> seq i (length pages)) ->
  (forall k, (k < length pages)%nat -> folder !! page_name (i + k) = None) ->
  write_pages pages i folder
  = (Done tt, list_to_map (page_files pages i) ∪ folder).
Proof.
  revert i folder. induction pages as [| p rest IH]; intros i folder Hnd Hfree.
  - cbn [write_pages page_files]. unfold skip.
    rewrite list_to_map_nil, (left_id_L ∅ (∪)). reflexivity.
  - cbn [write_pages length seq fmap list_fmap] in *.
    apply NoDup_cons in Hnd as [Hnotin Hnd].
    unfold and_then, write_file.
    pose proof (Hfree O ltac:(lia)) as H0. rewrite Nat.add_0_r in H0.
    rewrite H0. rewrite IH.
    + f_equal. cbn [page_files]. rewrite list_to_map_cons.
      rewrite <- insert_union_l. rewrite insert_union_r; [reflexivity |].
      apply not_elem_of_list_to_map_1. rewrite page_files_names. exact Hnotin.
    + exact Hnd.
    + intros k Hk. rewrite lookup_insert_ne.
      * replace (S i + k)%nat with (i + S k)%nat by lia. apply Hfree. lia.
      * intros Heq. apply Hnotin. rewrite Heq.
        apply list_elem_of_fmap_2, elem_of_seq. lia.
Qed.

(** The file of page [k]. *)
Lemma lookup_page_files (pages : list string) (i k : nat) (p : string) :
  NoDup (page_name <$> seq i (length pages)) ->
  pages !! k = Some p ->
  (list_to_map (page_files pages i) : gmap string fnode) !! page_name (i + k)
  = Some (TextFile p).
Proof.
  revert i k. induction pages as [| q rest IH]; intros i k Hnd Hk;
    [discriminate |].
  cbn [page_files length seq fmap list_fmap] in *. rewrite list_to_map_cons.
  apply NoDup_cons in Hnd as [Hnotin Hnd].
  destruct k as [| k].
  - injection Hk as ->. rewrite Nat.add_0_r. apply lookup_insert_eq.
  - cbn in Hk. apply lookup_lt_Some in Hk as Hlt.
    rewrite lookup_insert_ne.
    + replace (i + S k)%nat with (S i + k)%nat by lia. apply IH; trivial.
    + intros Heq. apply Hnotin. rewrite Heq.
      apply list_elem_of_fmap_2, elem_of_seq. lia.
Qed.

Lemma mapM_page_names (M : gmap string fnode) (pages : list string)
    (order : list nat) :
  (forall k p, pages !! k = Some p -> M !! page_name k = Some (TextFile p)) ->
  Forall (fun k => (k < length pages)%nat) order ->
  mapM (fun name => load_text (M !! name)) (page_name <$> order)
  = Done ((fun k => universal_newlines (nth k pages "")) <$> order).
Proof.
  intros HM. induction 1 as [| k order Hk _ IH]; [reflexivity |].
  cbn [fmap list_fmap mapM].
  destruct (lookup_lt_is_Some_2 pages k Hk) as [p Hp].
  rewrite (HM k p Hp). cbn [load_text mbind outcome_bind].
  change (list_fmap nat string page_name order) with (page_name <$> order).
  rewrite IH. cbn [mbind outcome_bind mret outcome_ret].
  rewrite (nth_lookup_Some _ _ _ _ Hp). reflexivity.
Qed.

Lemma nth_seq (pages : list string) :
  (fun k => universal_newlines (nth k pages "")) <$> seq 0 (length pages)
  = map universal_newlines pages.
Proof.
  change (map universal_newlines pages) with (universal_newlines <$> pages).
  apply list_eq. intros k. rewrite !list_lookup_fmap.
  destruct (decide (k < length pages)%nat) as [Hk | Hk].
  - rewrite lookup_seq_lt by exact Hk. cbn [fmap option_fmap option_map Nat.add].
    destruct (lookup_lt_is_Some_2 pages k Hk) as [p Hp].
    rewrite Hp, (nth_lookup_Some _ _ _ _ Hp). reflexivity.
  - rewrite lookup_seq_ge by lia. rewrite lookup_ge_None_2 by lia. reflexivity.
Qed.

(** The pages directory that [save_parsed] makes is read back in the
    order of the names of its files. *)
Lemma read_page_files (pages : list string) (order : list nat) :
  order ≡ₚ seq 0 (length pages) ->
  StronglySorted string_lt (page_name <$> order) ->
  write_pages pages 0 ∅ = (Done tt, list_to_map (page_files pages 0)) /\
  mapM (fun name => load_text ((list_to_map (page_files pages 0)
                                : gmap string fnode) !! name))
    (sorted (listdir (list_to_map (page_files pages 0))))
  = Done ((fun k => universal_newlines (nth k pages "")) <$> order).
Proof.
  intros Hperm Hinc.
  assert (Hnd : NoDup (page_name <$> seq 0 (length pages))).
  { rewrite <- Hperm. apply increasing_NoDup, Hinc. }
  split.
  - rewrite write_pages_fresh; [| exact Hnd | intros k _; apply lookup_empty].
    rewrite (right_id_L ∅ (∪)). reflexivity.
  - assert (Hsorted : sorted (listdir (list_to_map (page_files pages 0)))
                      = page_name <$> order).
    { unfold sorted, listdir.
      apply (StronglySorted_unique string_le).
      - apply StronglySorted_merge_sort; exact _.
      - apply increasing_sorted, Hinc.
      - rewrite merge_sort_Permutation.
        rewrite map_to_list_to_map by (rewrite page_files_names; exact Hnd).
        rewrite page_files_names, Hperm. reflexivity. }
    rewrite Hsorted. apply mapM_page_names.
    + intros k p Hk. apply (lookup_page_files pages 0 k p Hnd Hk).
    + rewrite Hperm. apply Forall_forall. intros k Hk.
      apply elem_of_seq in Hk. lia.
Qed.

Lemma universal_newlines_id (s : string) : no_cr s -> universal_newlines s = s.
Proof.
  unfold no_cr. induction s as [| c s IH]; [reflexivity |].
  cbn [list_ascii_of_string In universal_newlines]. intros Hn.
  destruct (Ascii.eqb_spec c "013"%char) as [-> | _].
  - exfalso. apply Hn. left. reflexivity.
  - rewrite IH; [reflexivity |]. intros Hin. apply Hn. right. exact Hin.
Qed.

Lemma map_universal_newlines_id (l : list string) :
  Forall no_cr l -> map universal_newlines l = l.
Proof.
  induction 1 as [| s l Hs _ IH]; [reflexivity |].
  cbn [map]. rewrite universal_newlines_id, IH by exact Hs. reflexivity.
Qed.

Lemma as_dicts_tables (tables : list (list (string * Json.t))) :
  as_dicts (Json.Arr (map Json.Obj tables)) = Some tables.
Proof.
  cbn [as_dicts]. induction tables as [| t l IH]; [reflexivity |].
  cbn [map mapM]. cbn [as_dict mbind option_bind]. rewrite IH. reflexivity.
Qed.


Lemma write_file_ok (name : string) (content : fnode) (entries : gmap string fnode) :
  (forall f, entries !! name <> Some (Folder f)) ->
  write_file name content entries = (Done tt, <[name := content]> entries).
Proof.
  intros H. unfold write_file.
  destruct (entries !! name) as [[] |] eqn:E; try reflexivity.
  exfalso. exact (H _ eq_refl).
Qed.

Lemma stored_text (doc : ParsedDocument.t) (entries : gmap string fnode) :
  stored doc entries !! "text.txt" = Some (TextFile (ParsedDocument.text doc)).
Proof.
  unfold stored. cbv zeta.
  destruct (ParsedDocument.pages doc), (ParsedDocument.tables doc);
    repeat (rewrite lookup_insert_ne by discriminate); apply lookup_insert_eq.
Qed.

Lemma stored_metadata (doc : ParsedDocument.t) (entries : gmap string fnode) :
  stored doc entries !! "metadata.json" = Some (JsonFile (metadata_json doc)).
Proof. unfold stored. cbv zeta. apply lookup_insert_eq. Qed.

Lemma stored_tables (doc : ParsedDocument.t) (entries : gmap string fnode) :
  stored doc entries !! "tables.json"
  = match ParsedDocument.tables doc with
    | [] => entries !! "tables.json"
    | _ => Some (JsonFile (tables_json doc))
    end.
Proof.
  unfold stored. cbv zeta.
  destruct (ParsedDocument.pages doc), (ParsedDocument.tables doc);
    repeat (rewrite lookup_insert_ne by discriminate);
    try apply lookup_insert_eq; reflexivity.
Qed.

Lemma stored_pages (doc : ParsedDocument.t) (entries : gmap string fnode) :
  stored doc entries !! "pages"
  = match ParsedDocument.pages doc with
    | [] => entries !! "pages"
    | pages => Some (Folder (list_to_map (page_files pages 0)))
    end.
Proof.
  unfold stored. cbv zeta.
  destruct (ParsedDocument.pages doc), (ParsedDocument.tables doc);
    repeat (rewrite lookup_insert_ne by discriminate);
    try apply lookup_insert_eq; reflexivity.
Qed.

(** What [save_parsed] leaves in a directory where nothing is in its
    way. *)
Lemma save_into_stored (doc : ParsedDocument.t) (entries : gmap string fnode) :
  (forall f, entries !! "text.txt" <> Some (Folder f)) ->
  (forall f, entries !! "tables.json" <> Some (Folder f)) ->
  (forall f, entries !! "metadata.json" <> Some (Folder f)) ->
  ParsedDocument.pages doc = [] \/
  entries !! "pages" = None /\
  write_pages (ParsedDocument.pages doc) 0 ∅
  = (Done tt, list_to_map (page_files (ParsedDocument.pages doc) 0)) ->
  save_into doc entries = (Done tt, stored doc entries).
Proof.
  intros Htext Htables Hmeta Hpages.
  unfold save_into, stored, and_then. cbv zeta.
  rewrite write_file_ok by exact Htext.
  destruct (ParsedDocument.pages doc) as [| p rest] eqn:Ep.
  - unfold skip at 1.
    destruct (ParsedDocument.tables doc) as [| t ts] eqn:Et.
    + unfold skip. apply write_file_ok. intros f.
      rewrite lookup_insert_ne by discriminate. apply Hmeta.
    + rewrite write_file_ok
        by (intros f; rewrite lookup_insert_ne by discriminate; apply Htables).
      apply write_file_ok. intros f.
      rewrite !lookup_insert_ne by discriminate. apply Hmeta.
  - destruct Hpages as [Hp | [Hnone Hw]]; [discriminate |].
    unfold write_pages_dir.
    rewrite lookup_insert_ne by discriminate. rewrite Hnone.
    cbn [makedirs]. rewrite Hw.
    destruct (ParsedDocument.tables doc) as [| t ts] eqn:Et.
    + unfold skip. apply write_file_ok. intros f.
      rewrite !lookup_insert_ne by discriminate. apply Hmeta.
    + rewrite write_file_ok
        by (intros f; rewrite !lookup_insert_ne by discriminate; apply Htables).
      apply write_file_ok. intros f.
      rewrite !lookup_insert_ne by discriminate. apply Hmeta.
Qed.

(** Reading a directory back, from what its four entries give. *)
Lemma load_parsed_entries (entries : gmap string fnode) (doc : ParsedDocument.t)
    (pages : list string) (tables : list (list (string * Json.t))) :
  entries !! "text.txt" = Some (TextFile (ParsedDocument.text doc)) ->
  entries !! "metadata.json" = Some (JsonFile (metadata_json doc)) ->
  load_tables entries = Done (Json.Arr (map Json.Obj tables)) ->
  load_pages entries = Done pages ->
  load_parsed (Some (Folder entries))
  = Done (Some (ParsedDocument.mk (ParsedDocument.source_path doc)
                  (ParsedDocument.parser doc)
                  (universal_newlines (ParsedDocument.text doc))
                  pages tables (ParsedDocument.metadata doc))).
Proof.
  intros Ht Hm Htab Hp. unfold load_parsed. cbv zeta.
  rewrite Ht, Hm, Htab, Hp.
  cbn [load_text load_data mbind outcome_bind metadata_json subscript lookup_key
       List.find fst snd fmap option_fmap option_map String.eqb Ascii.eqb
       Bool.eqb as_str as_dict option_bind].
  rewrite as_dicts_tables. reflexivity.
Qed.

(** The tables and the pages of a directory that held nothing before
    [doc] was saved into it. *)
Lemma load_tables_stored (doc : ParsedDocument.t) :
  load_tables (stored doc ∅) = Done (tables_json doc).
Proof.
  unfold load_tables. rewrite stored_tables. unfold tables_json.
  destruct (ParsedDocument.tables doc); [rewrite lookup_empty |]; reflexivity.
Qed.

Lemma load_pages_stored (doc : ParsedDocument.t) (order : list nat) :
  order ≡ₚ seq 0 (length (ParsedDocument.pages doc)) ->
  StronglySorted string_lt (page_name <$> order) ->
  load_pages (stored doc ∅)
  = Done ((fun k => universal_newlines (nth k (ParsedDocument.pages doc) ""))
            <$> order).
Proof.
  intros Hperm Hinc. unfold load_pages. rewrite stored_pages.
  destruct (ParsedDocument.pages doc) as [| p rest] eqn:Ep.
  - rewrite lookup_empty. apply Permutation_nil_r in Hperm. subst order.
    reflexivity.
  - apply (read_page_files (p :: rest) order Hperm Hinc).
Qed.

Lemma save_parsed_fresh (doc : ParsedDocument.t) (at_dir : option fnode)
    (order : list nat) :
  makedirs at_dir = Done ∅ ->
  order ≡ₚ seq 0 (length (ParsedDocument.pages doc)) ->
  StronglySorted string_lt (page_name <$> order) ->
  save_parsed doc at_dir = (Done tt, Some (Folder (stored doc ∅))).
Proof.
  intros Hfresh Hperm Hinc. unfold save_parsed. rewrite Hfresh.
  rewrite save_into_stored; trivial;
    try (intros f; rewrite lookup_empty; discriminate).
  right. split; [apply lookup_empty |].
  apply (read_page_files _ order Hperm Hinc).
Qed.




End Parsed_documents.

(** * The properties of the other modules on samples *)

Section Samples_stored.

Lemma aggregate_scores_fails_only_on_empty_sample :
  exists r,
    aggregate_scores sample_scores "run-7" = Ok r /\
    EvalResult.run_id r = "run-7" /\
    EvalResult.scores r = sample_scores /\
    EvalResult.scores_by_category r = [].
Proof.
  apply (aggregate_scores_fails_only_on_empty sample_scores "run-7");
    [reflexivity | discriminate].
Defined.

Lemma aggregate_scores_rates_are_fractions_sample :
  exists r,
    aggregate_scores sample_scores "run-7" = Ok r /\
    unit_interval (EvalResult.accuracy_rate r) /\
    unit_interval (EvalResult.citation_rate r) /\
    unit_interval (EvalResult.hallucination_rate r).
Proof.
  apply (aggregate_scores_rates_are_fractions sample_scores "run-7");
    [discriminate | reflexivity].
Defined.

Lemma aggregate_scores_all_or_none_sample :
  exists r,
    aggregate_scores [right_score; right_score] "run-8" = Ok r /\
    EvalResult.accuracy_rate r = one /\
    EvalResult.hallucination_rate r = pzero.
Proof.
  destruct (aggregate_scores_all_or_none [right_score; right_score] "run-8")
    as (r & Hr & Hacc & _ & _ & _ & _ & Hhal);
    [discriminate | reflexivity |].
  exists r. split; [exact Hr |]. split.
  - apply Hacc. repeat constructor.
  - apply Hhal. repeat constructor; discriminate.
Defined.

Lemma aggregate_scores_of_template_sample :
  exists r,
    aggregate_scores [blank_score; blank_score] "run-9" = Ok r /\
    EvalResult.accuracy_rate r = pzero /\
    EvalResult.completion_rate r = pzero /\
    EvalResult.citation_rate r = pzero /\
    EvalResult.hallucination_rate r = pzero.
Proof.
  apply (aggregate_scores_of_template [blank_score; blank_score] "run-9");
    [discriminate | reflexivity |].
  repeat constructor;
    exists "q3", [32%N; 10%N; 160%N], (Json.Obj []), "human"; reflexivity.
Defined.

Lemma save_load_eval_sample :
  load_eval "eval.json"
    (snd (save_eval (result_of sample_scores "run-7") "eval.json" empty_disk))
  = Done (Some (result_of sample_scores "run-7")).
Proof.
  apply (save_load_eval (result_of sample_scores "run-7") "eval.json" empty_disk);
    vm_compute; reflexivity.
Defined.

Lemma save_load_response_sample :
  load_response "response.json"
    (snd (save_response sample_response "response.json" empty_disk))
  = Done (Some sample_response).
Proof.
  apply (save_load_response sample_response "response.json" empty_disk).
  vm_compute. reflexivity.
Defined.




End Samples_stored.
